(** * Restart scheduling and trail reuse of CaDiCaL ([src/restart.cpp])

    A shallow embedding of [Internal::stabilizing], [Internal::restarting],
    [Internal::reuse_trail] and [Internal::restart], and the properties of
    the restart core proved (or refuted) on it.

    Conventions of the embedding:
    - [int], [int64_t] and [size_t] values are [Z]; every arithmetic
      operation of the source is followed by the reduction to its type
      ([to_int], [to_int64], [to_size_t]).  Signed overflow is undefined in
      C++; the model takes the two's-complement result and the theorems say
      where they need the absence of overflow.
    - [double] values are the kernel's binary64 floats ([PrimFloat]), whose
      operations are the IEEE 754 ones the compiled code uses.
    - [control[i]] outside the vector is undefined behaviour and is the
      outcome [Undefined].
    - [report], [START] and [STOP] append to the event log of the state;
      [LOG] and [PHASE] only print and are left out. *)

From Stdlib Require Import ZArith List Bool Lia Ascii.
From Stdlib Require Import PrimFloat SpecFloat FloatOps Uint63.
Import ListNotations.
Open Scope Z_scope.

(** ** Machine integers *)

Definition INT_MIN : Z := - 2 ^ 31.
Definition INT_MAX : Z := 2 ^ 31 - 1.
Definition INT64_MIN : Z := - 2 ^ 63.
Definition INT64_MAX : Z := 2 ^ 63 - 1.

Definition to_int (z : Z) : Z := (z + 2 ^ 31) mod 2 ^ 32 - 2 ^ 31.
Definition to_int64 (z : Z) : Z := (z + 2 ^ 63) mod 2 ^ 64 - 2 ^ 63.
Definition to_size_t (z : Z) : Z := z mod 2 ^ 64.

Definition in_int (z : Z) : Prop := INT_MIN <= z <= INT_MAX.
Definition in_int64 (z : Z) : Prop := INT64_MIN <= z <= INT64_MAX.

(** ** Doubles *)

(** [(double) z] for an [int] or [int64_t] value [z]. *)
Definition double_of_Z (z : Z) : float :=
  if z =? INT64_MIN then (- Z.ldexp 1 63)%float
  else if z <? 0 then (- of_uint63 (of_Z (- z)))%float
  else of_uint63 (of_Z z).

(** [(int64_t) f]: the fractional part is discarded.  For a NaN, an
    infinity or a value outside [int64_t] the conversion is undefined in
    C++; the model returns what the x86-64 conversion instruction does,
    [INT64_MIN]. *)
Definition int64_of_double (f : float) : Z :=
  match Prim2SF f with
  | S754_zero _ => 0
  | S754_finite sign m e =>
      let magnitude := Z.shiftl (Zpos m) e in
      let v := if sign then - magnitude else magnitude in
      if (INT64_MIN <=? v) && (v <=? INT64_MAX) then v else INT64_MIN
  | S754_infinity _ | S754_nan => INT64_MIN
  end.

(** The literal [1e-2]. *)
Definition lit_1e_2 : float := 0x1.47ae147ae147bp-7%float.

Arguments to_int : simpl never.
Arguments to_int64 : simpl never.
Arguments to_size_t : simpl never.
Arguments double_of_Z : simpl never.
Arguments int64_of_double : simpl never.

(** ** The solver state read and written by the restart core *)

Module Opts.
Record t : Type := mk {
  stabilize : bool;
  stabilizeonly : bool;
  stabilizefactor : Z;
  restart : bool;
  restartmargin : Z;
  restartint : Z;
  restartreusetrail : bool
}.
End Opts.

Module Stats.
Record t : Type := mk {
  conflicts : Z;
  ticks_search : Z;
  stabphases : Z;
  restarts : Z;
  restartlevels : Z;
  restartstable : Z;
  reused : Z;
  reusedlevels : Z;
  reusedstable : Z
}.

Definition set_stabphases (v : Z) (st : t) : t :=
  mk (conflicts st) (ticks_search st) v (restarts st) (restartlevels st)
     (restartstable st) (reused st) (reusedlevels st) (reusedstable st).
Definition set_restarts (v : Z) (st : t) : t :=
  mk (conflicts st) (ticks_search st) (stabphases st) v (restartlevels st)
     (restartstable st) (reused st) (reusedlevels st) (reusedstable st).
Definition set_restartlevels (v : Z) (st : t) : t :=
  mk (conflicts st) (ticks_search st) (stabphases st) (restarts st) v
     (restartstable st) (reused st) (reusedlevels st) (reusedstable st).
Definition set_restartstable (v : Z) (st : t) : t :=
  mk (conflicts st) (ticks_search st) (stabphases st) (restarts st)
     (restartlevels st) v (reused st) (reusedlevels st) (reusedstable st).
Definition set_reused (v : Z) (st : t) : t :=
  mk (conflicts st) (ticks_search st) (stabphases st) (restarts st)
     (restartlevels st) (restartstable st) v (reusedlevels st)
     (reusedstable st).
Definition set_reusedlevels (v : Z) (st : t) : t :=
  mk (conflicts st) (ticks_search st) (stabphases st) (restarts st)
     (restartlevels st) (restartstable st) (reused st) v (reusedstable st).
Definition set_reusedstable (v : Z) (st : t) : t :=
  mk (conflicts st) (ticks_search st) (stabphases st) (restarts st)
     (restartlevels st) (restartstable st) (reused st) (reusedlevels st) v.
End Stats.

Module Lim.
Record t : Type := mk { stabilize : Z; restart : Z }.

Definition set_stabilize (v : Z) (l : t) : t := mk v (restart l).
Definition set_restart (v : Z) (l : t) : t := mk (stabilize l) v.
End Lim.

Module Last.
Record t : Type := mk { stabilize_conflicts : Z; stabilize_ticks : Z }.
End Last.

(** The glue averages of one phase ([averages.current.glue.fast] and
    [.slow], read as doubles). *)
Module Glue.
Record t : Type := mk { fast : float; slow : float }.
End Glue.

Module Averages.
Record t : Type := mk { current : Glue.t; saved : Glue.t }.
End Averages.

(** Modelled from the spec: the type of the frames of [control] is not part
    of the sources at hand; a frame records a real decision literal or none,
    and the code reads [decision] as a truth value, so that none is [0]. *)
Record Level : Type := mkLevel { decision : Z }.

(** [struct Var] of [var.hpp]: the data of an assigned variable.  The two
    clause pointers are references into the clause storage (none for the
    null pointer). *)
Record Var : Type := mkVar {
  var_level : Z;
  var_trail : Z;
  var_reason : option nat;
  var_missed_implication : option nat;
  var_missed_level : Z;
  var_dirty : bool
}.

Inductive Profile : Type := prof_stable | prof_unstable | prof_restart.

Inductive Event : Type :=
| Report (c : ascii)
| Start (p : Profile)
| Stop (p : Profile).

(** The members of [Internal] that the restart core reads and writes.
    Modelled from the spec: [reluctant], the reluctant-doubling generator, is
    not part of the sources at hand; the spec has it advanced by the rest of
    the solver and read here as its current fire signal. *)
Record Internal : Type := mkInternal {
  opts : Opts.t;
  stats : Stats.t;
  lim : Lim.t;
  inc_stabilize : Z;
  last : Last.t;
  averages : Averages.t;
  stable : bool;
  reluctant : bool;
  level : Z;
  assumptions : list Z;
  control : list Level;
  events : list Event        (* most recent first *)
}.

Definition set_stats (v : Stats.t) (s : Internal) : Internal :=
  mkInternal (opts s) v (lim s) (inc_stabilize s) (last s) (averages s)
             (stable s) (reluctant s) (level s) (assumptions s) (control s)
             (events s).
Definition set_lim (v : Lim.t) (s : Internal) : Internal :=
  mkInternal (opts s) (stats s) v (inc_stabilize s) (last s) (averages s)
             (stable s) (reluctant s) (level s) (assumptions s) (control s)
             (events s).
Definition set_inc_stabilize (v : Z) (s : Internal) : Internal :=
  mkInternal (opts s) (stats s) (lim s) v (last s) (averages s)
             (stable s) (reluctant s) (level s) (assumptions s) (control s)
             (events s).
Definition set_averages (v : Averages.t) (s : Internal) : Internal :=
  mkInternal (opts s) (stats s) (lim s) (inc_stabilize s) (last s) v
             (stable s) (reluctant s) (level s) (assumptions s) (control s)
             (events s).
Definition set_stable (v : bool) (s : Internal) : Internal :=
  mkInternal (opts s) (stats s) (lim s) (inc_stabilize s) (last s)
             (averages s) v (reluctant s) (level s) (assumptions s)
             (control s) (events s).
Definition set_level (v : Z) (s : Internal) : Internal :=
  mkInternal (opts s) (stats s) (lim s) (inc_stabilize s) (last s)
             (averages s) (stable s) (reluctant s) v (assumptions s)
             (control s) (events s).
Definition set_control (v : list Level) (s : Internal) : Internal :=
  mkInternal (opts s) (stats s) (lim s) (inc_stabilize s) (last s)
             (averages s) (stable s) (reluctant s) (level s) (assumptions s)
             v (events s).
Definition emit (e : Event) (s : Internal) : Internal :=
  mkInternal (opts s) (stats s) (lim s) (inc_stabilize s) (last s)
             (averages s) (stable s) (reluctant s) (level s) (assumptions s)
             (control s) (e :: events s).

Definition report (c : ascii) : Internal -> Internal := emit (Report c).
Definition START (p : Profile) : Internal -> Internal := emit (Start p).
Definition STOP (p : Profile) : Internal -> Internal := emit (Stop p).

Definition phase_profile (b : bool) : Profile :=
  if b then prof_stable else prof_unstable.

(** Modelled from the spec: [swap_averages] is not part of the sources at
    hand; the spec says that a phase flip swaps the active set of glue
    averages with the alternate one. *)
Definition swap_averages (s : Internal) : Internal :=
  set_averages
    (Averages.mk (Averages.saved (averages s)) (Averages.current (averages s)))
    s.

(** Modelled from the spec: [backtrack] is an external primitive; it undoes
    the decision frames strictly above the given level, so that the given
    level becomes the current one. *)
Definition backtrack (new_level : Z) (s : Internal) : Internal :=
  if new_level <? level s
  then set_level new_level
         (set_control (firstn (Z.to_nat (new_level + 1)) (control s)) s)
  else s.

(** ** [Internal::stabilizing] *)

(** Lines 29-62: the phase switch once the limit is crossed.
    [delta_conflicts] is computed for the message of [PHASE] only. *)
Definition stabilizing_flip (s : Internal) : bool * Internal :=
  let s := report (if stable s then "]" else "}")%char s in
  let s := STOP (phase_profile (stable s)) s in
  let delta_ticks :=
    to_int64 (Stats.ticks_search (stats s) - Last.stabilize_ticks (last s)) in
  let s :=
    if inc_stabilize s =? 0 then set_inc_stabilize delta_ticks s
    else if stable s then
      set_inc_stabilize
        (int64_of_double
           (double_of_Z (inc_stabilize s)
            * (double_of_Z (Opts.stabilizefactor (opts s)) * lit_1e_2))%float)
        s
    else s in
  let s :=
    set_lim
      (Lim.set_stabilize
         (to_int64 (Stats.ticks_search (stats s) + inc_stabilize s)) (lim s))
      s in
  let s :=
    if Lim.stabilize (lim s) <=? Stats.ticks_search (stats s)
    then set_lim
           (Lim.set_stabilize (to_int64 (Stats.ticks_search (stats s) + 1))
              (lim s)) s
    else s in
  let s := set_stable (negb (stable s)) s in
  let s :=
    if stable s
    then set_stats
           (Stats.set_stabphases (to_int64 (Stats.stabphases (stats s) + 1))
              (stats s)) s
    else s in
  let s := swap_averages s in
  let s := report (if stable s then "[" else "{")%char s in
  let s := START (phase_profile (stable s)) s in
  (stable s, s).

Definition stabilizing (s : Internal) : bool * Internal :=
  if negb (Opts.stabilize (opts s)) then (false, s)
  else if stable s && Opts.stabilizeonly (opts s) then (true, s)
  else if inc_stabilize s =? 0 then
    (* assert (!stable); see [stabilizing_assertion] *)
    if Stats.conflicts (stats s) <=? Lim.stabilize (lim s) then (false, s)
    else stabilizing_flip s
  else if Stats.ticks_search (stats s) <=? Lim.stabilize (lim s)
  then (stable s, s)
  else stabilizing_flip s.

(** Whether the call of [stabilizing] on [s] reaches line 24. *)
Definition takes_precalibration_branch (s : Internal) : bool :=
  Opts.stabilize (opts s)
  && negb (stable s && Opts.stabilizeonly (opts s))
  && (inc_stabilize s =? 0).

(** [assert (!stable)] of line 24: [true] when the call of [stabilizing] on
    [s] does not reach the assertion or the assertion holds there. *)
Definition stabilizing_assertion (s : Internal) : bool :=
  if takes_precalibration_branch s then negb (stable s) else true.

(** [stabilizing] as a build with assertions runs it: a failing
    [assert (!stable)] aborts. *)
Definition stabilizing_debug (s : Internal) : option (bool * Internal) :=
  if negb (Opts.stabilize (opts s)) then Some (false, s)
  else if stable s && Opts.stabilizeonly (opts s) then Some (true, s)
  else if inc_stabilize s =? 0 then
    if negb (stable s) then
      if Stats.conflicts (stats s) <=? Lim.stabilize (lim s)
      then Some (false, s)
      else Some (stabilizing_flip s)
    else None
  else if Stats.ticks_search (stats s) <=? Lim.stabilize (lim s)
  then Some (stable s, s)
  else Some (stabilizing_flip s).

(** The interval that lines 43-46 leave in [inc.stabilize]. *)
Definition flip_interval (s : Internal) : Z :=
  if inc_stabilize s =? 0
  then to_int64 (Stats.ticks_search (stats s) - Last.stabilize_ticks (last s))
  else if stable s
  then int64_of_double
         (double_of_Z (inc_stabilize s)
          * (double_of_Z (Opts.stabilizefactor (opts s)) * lit_1e_2))%float
  else inc_stabilize s.

(** Whether the call of [stabilizing] on [s] switches the phase. *)
Definition crosses_limit (s : Internal) : bool :=
  Opts.stabilize (opts s)
  && negb (stable s && Opts.stabilizeonly (opts s))
  && (if inc_stabilize s =? 0
      then Lim.stabilize (lim s) <? Stats.conflicts (stats s)
      else Lim.stabilize (lim s) <? Stats.ticks_search (stats s)).

(** ** [Internal::restarting] *)

Definition restarting (s : Internal) : bool * Internal :=
  if negb (Opts.restart (opts s)) then (false, s)
  else if to_size_t (level s)
          <? to_size_t (Z.of_nat (length (assumptions s)) + 2)
  then (false, s)
  else
    let (stab, s) := stabilizing s in
    if stab then (reluctant s, s)
    else if Stats.conflicts (stats s) <=? Lim.restart (lim s) then (false, s)
    else
      let f := Glue.fast (Averages.current (averages s)) in
      let margin :=
        ((100 + double_of_Z (Opts.restartmargin (opts s))) / 100)%float in
      let sl := Glue.slow (Averages.current (averages s)) in
      let l := (margin * sl)%float in
      ((l <=? f)%float, s).

(** ** Outcomes of the code that reads the decision stack *)

Inductive outcome (A : Type) : Type :=
| Done (a : A)
| Undefined          (* a read of [control] outside the vector *)
| OutOfFuel.         (* the loop bound of the model was too small *)

Arguments Done {A} a.
Arguments Undefined {A}.
Arguments OutOfFuel {A}.

Definition bind {A B : Type} (m : outcome A) (k : A -> outcome B) : outcome B :=
  match m with
  | Done a => k a
  | Undefined => Undefined
  | OutOfFuel => OutOfFuel
  end.

Notation "x <- m ;; k" := (bind m (fun x => k))
  (at level 61, m at next level, right associativity).

(** [control[i].decision]; an [int] index below 0 converts to a [size_t]
    beyond the end of every vector. *)
Definition control_decision (s : Internal) (i : Z) : outcome Z :=
  if i <? 0 then Undefined
  else match nth_error (control s) (Z.to_nat i) with
       | Some f => Done (decision f)
       | None => Undefined
       end.

(** Lines 94-98. *)
Definition trivial_decisions (s : Internal) : outcome Z :=
  let size := Z.of_nat (length (assumptions s)) in
  d <- control_decision s (to_size_t (size + 1)) ;;
  Done (to_int (to_size_t (size + (if d =? 0 then 1 else 0)))).

(** ** [Internal::reuse_trail] and [Internal::restart] *)

(** The decision heuristics are not part of the sources at hand and are
    parameters of the model: the variable the search would decide next, the
    flag that selects the ranking, the strict order on scores and the bump
    time stamp of (the variable of) a literal. *)
Record Heuristics : Type := mkHeuristics {
  next_decision_variable : Internal -> Z;
  use_scores : Internal -> bool;
  score_smaller : Internal -> Z -> Z -> bool;
  bumped : Internal -> Z -> Z
}.

Section Oracles.

Variable h : Heuristics.

(** The test on the decision of [control[res + 1]] in the loops of lines
    105-108 and 113-114, for the next decision variable [decision]. *)
Definition reuse_test (s : Internal) (decision : Z) : Z -> bool :=
  if use_scores h s
  then fun d => score_smaller h s decision (to_int (Z.abs d))
  else
    let limit := bumped h s decision in
    fun d => bumped h s d >? limit.

(** The two [while] loops, which differ in the test only. *)
Fixpoint reuse_walk (test : Z -> bool) (s : Internal) (fuel : nat) (res : Z)
  : outcome Z :=
  match fuel with
  | O => OutOfFuel
  | S fuel' =>
      if res <? level s then
        d <- control_decision s (to_int (res + 1)) ;;
        if negb (d =? 0) && test d
        then reuse_walk test s fuel' (to_int (res + 1))
        else Done res
      else Done res
  end.

(** Lines 119-125. *)
Definition count_reused (reused : Z) (s : Internal) : Internal :=
  if 0 <? reused then
    let s :=
      set_stats
        (Stats.set_reused (to_int64 (Stats.reused (stats s) + 1)) (stats s))
        s in
    let s :=
      set_stats
        (Stats.set_reusedlevels
           (to_int64 (Stats.reusedlevels (stats s) + reused)) (stats s)) s in
    if stable s
    then set_stats
           (Stats.set_reusedstable
              (to_int64 (Stats.reusedstable (stats s) + 1)) (stats s)) s
    else s
  else s.

(** The assertions [1 <= decision] (on the oracle) and
    [control[res + 1].decision] (which the loop test has just checked) are
    left out. *)
Definition reuse_trail (s : Internal) : outcome (Z * Internal) :=
  td <- trivial_decisions s ;;
  if negb (Opts.restartreusetrail (opts s)) then Done (td, s)
  else
    let decision := next_decision_variable h s in
    res <- reuse_walk (reuse_test s decision) s
             (S (Z.to_nat (level s - td))) td ;;
    let reused := to_int (res - td) in
    Done (res, count_reused reused s).

(** Lines 130-134: the statistics of the restart, written before
    [reuse_trail] is called. *)
Definition restart_count (s : Internal) : Internal :=
  let s := START prof_restart s in
  let s :=
    set_stats
      (Stats.set_restarts (to_int64 (Stats.restarts (stats s) + 1)) (stats s))
      s in
  let s :=
    set_stats
      (Stats.set_restartlevels
         (to_int64 (Stats.restartlevels (stats s) + level s)) (stats s)) s in
  if stable s
  then set_stats
         (Stats.set_restartstable
            (to_int64 (Stats.restartstable (stats s) + 1)) (stats s)) s
  else s.

Definition restart (s : Internal) : outcome Internal :=
  let s := restart_count s in
  r <- reuse_trail s ;;
  let s := backtrack (fst r) (snd r) in
  let s :=
    set_lim
      (Lim.set_restart
         (to_int64 (Stats.conflicts (stats s) + Opts.restartint (opts s)))
         (lim s)) s in
  let s := report "R"%char s in
  Done (STOP prof_restart s).

End Oracles.

(** ** Well-formed decision stacks *)

(** [level] is an [int] that is not negative, and [control] holds the frames
    of the levels [0 .. level]. *)
Definition stack_consistent (s : Internal) : Prop :=
  0 <= level s <= INT_MAX /\ Z.of_nat (length (control s)) = level s + 1.

(** The decision depth is at least the assumption count plus [k]. *)
Definition above_assumptions (k : Z) (s : Internal) : Prop :=
  Z.of_nat (length (assumptions s)) + k <= level s.

(** The counters that [reuse_trail] increments have room for one more
    reuse of at most [level] levels. *)
Definition reuse_counters_fit (s : Internal) : Prop :=
  in_int64 (Stats.reused (stats s) + 1) /\
  (INT64_MIN <= Stats.reusedlevels (stats s) + 1 /\
   Stats.reusedlevels (stats s) + level s <= INT64_MAX) /\
  in_int64 (Stats.reusedstable (stats s) + 1).

(** The counters and the limit that [restart] writes have room. *)
Definition restart_counters_fit (s : Internal) : Prop :=
  in_int64 (Stats.restarts (stats s) + 1) /\
  in_int64 (Stats.restartlevels (stats s) + level s) /\
  in_int64 (Stats.restartstable (stats s) + 1) /\
  in_int64 (Stats.conflicts (stats s) + Opts.restartint (opts s)).

(** [margin] of line 82. *)
Definition restart_margin (s : Internal) : float :=
  ((100 + double_of_Z (Opts.restartmargin (opts s))) / 100)%float.

(** The existing decision [d] would be taken before the next decision
    variable: the order of the scores puts the next decision variable below
    the variable of [d], or, on the queue, [d] was bumped strictly later. *)
Definition outranks_next (h : Heuristics) (s : Internal) (d : Z) : bool :=
  if use_scores h s
  then score_smaller h s (next_decision_variable h s) (to_int (Z.abs d))
  else bumped h s (next_decision_variable h s) <? bumped h s d.

(** ** What the rest of the solver does between two calls *)

(** The rest of the solver advances counters, averages, the reluctant
    generator and the decision stack; it writes neither the options nor the
    phase flag. *)
Definition environment_step (s s' : Internal) : Prop :=
  opts s' = opts s /\ stable s' = stable s.

Inductive search_step (s : Internal) : Internal -> Prop :=
| step_environment s' : environment_step s s' -> search_step s s'
| step_stabilizing : search_step s (snd (stabilizing s))
| step_restarting : search_step s (snd (restarting s)).

Inductive search_run (s : Internal) : Internal -> Prop :=
| run_here : search_run s s
| run_more s1 s2 : search_run s s1 -> search_step s1 s2 -> search_run s s2.

(** ** Sentences of the specification in their own words *)

(** Condition (b) of the walk as the specification has it: the existing
    decision [d] "ranks lower priority" than the next decision, which in
    activity mode reads "last-bump timestamp strictly less". *)
Definition spec_ranks_lower (h : Heuristics) (s : Internal) (d : Z) : bool :=
  if use_scores h s
  then score_smaller h s (to_int (Z.abs d)) (next_decision_variable h s)
  else bumped h s d <? bumped h s (next_decision_variable h s).

(** The walk of the specification: every level passed on the way from [td]
    to [res] satisfies (a) and (b), and [res] is the top of the stack or the
    level above it fails (a) or (b). *)
Definition spec_walk_result (h : Heuristics) (s : Internal) (td res : Z)
  : Prop :=
  td <= res <= level s /\
  (forall l, td <= l < res ->
     exists d, control_decision s (l + 1) = Done d /\ d <> 0 /\
               spec_ranks_lower h s d = true) /\
  (res < level s ->
     exists d, control_decision s (res + 1) = Done d /\
               (d = 0 \/ spec_ranks_lower h s d = false)).

Definition spec_reuse_walk (h : Heuristics) (s : Internal) : Prop :=
  exists td res s',
    trivial_decisions s = Done td /\
    reuse_trail h s = Done (res, s') /\
    spec_walk_result h s td res.

(** "Stabilize-only mode configured and phase stable: [stabilizing] returns
    true and [restarting] (feature enabled, depth guard satisfied) equals
    the fire signal of the reluctant generator." *)
Definition spec_stabilize_only (s : Internal) : Prop :=
  Opts.stabilizeonly (opts s) = true -> stable s = true ->
  fst (stabilizing s) = true /\
  (Opts.restart (opts s) = true -> above_assumptions 2 s ->
   fst (restarting s) = reluctant s).

(** ** Sample states *)

Definition ex_opts : Opts.t :=
  Opts.mk true false 200 true 10 2 true.

Definition ex_stats (conflicts ticks : Z) : Stats.t :=
  Stats.mk conflicts ticks 0 7 40 3 2 5 1.

Definition ex_averages : Averages.t :=
  Averages.mk (Glue.mk 10 4) (Glue.mk 3 6).

(** A state with the decisions [ds] on the levels [1 .. length ds]. *)
Definition ex_state (o : Opts.t) (st : Stats.t) (l : Lim.t) (inc : Z)
  (lst : Last.t) (stab rel : bool) (assumed ds : list Z) : Internal :=
  mkInternal o st l inc lst ex_averages stab rel (Z.of_nat (length ds))
    assumed (map mkLevel (0 :: ds)) [].

(** Bump time stamps: variable 1 at 30, variable 2 at 20, variable 3 at 5
    and variable 9, the next decision variable, at 10. *)
Definition ex_bumped (lit : Z) : Z :=
  match Z.abs lit with
  | 1 => 30 | 2 => 20 | 3 => 5 | 9 => 10 | _ => 0
  end.

Definition ex_heuristics : Heuristics :=
  mkHeuristics (fun _ => 9) (fun _ => false) (fun _ a b => a <? b)
    (fun _ => ex_bumped).

(** Three decisions, the first two bumped after the next decision
    variable, the third before it. *)
Definition ex_scenario_d : Internal :=
  ex_state ex_opts (ex_stats 50 900) (Lim.mk 1000 60) 0 (Last.mk 0 0)
    false false [] [1; -2; 3].

(** Two decisions, the lower one bumped before the next decision variable. *)
Definition ex_bumped_earlier : Internal :=
  ex_state ex_opts (ex_stats 50 900) (Lim.mk 1000 60) 0 (Last.mk 0 0)
    false false [] [3; 1].

(** One assumption whose level is followed by a pseudo-decision level; the
    reuse is switched off. *)
Definition ex_reuse_off : Internal :=
  ex_state (Opts.mk true false 200 true 10 2 false) (ex_stats 50 900)
    (Lim.mk 1000 60) 0 (Last.mk 0 0) true false [4] [4; 0; 1; 2].

(** Scenario A: stabilization disabled, restarts enabled, no assumptions,
    level 6, fast glue 10, slow glue 4, margin 0, conflicts above the
    limit 5. *)
Definition ex_scenario_a (conflicts : Z) : Internal :=
  ex_state (Opts.mk false false 200 true 0 5 true) (ex_stats conflicts 900)
    (Lim.mk 1000 5) 0 (Last.mk 0 0) false false [] [1; 2; 3; 4; 5; 6].

(** Stable phase in stabilize-only mode, the reluctant generator firing. *)
Definition ex_stable_only : Internal :=
  ex_state (Opts.mk true true 200 true 10 2 true) (ex_stats 5000 90000)
    (Lim.mk 100 60) 800 (Last.mk 0 0) true true [] [1; 2; 3].

(** The stabilize-only flag set and the phase flag stable while the
    stabilization itself is disabled: a state that no run from an unstable
    phase reaches. *)
Definition ex_only_but_disabled : Internal :=
  ex_state (Opts.mk false true 200 true 0 2 true) (ex_stats 5000 90000)
    (Lim.mk 100 60) 800 (Last.mk 0 0) true false [] [1; 2; 3].

(** The initial unstable and uncalibrated phase at its first switch, with
    the conflict limit 1000 crossed and no tick counted since the time
    recorded in [last.stabilize.ticks]. *)
Definition ex_no_ticks : Internal :=
  ex_state ex_opts (ex_stats 1001 5000) (Lim.mk 1000 60) 0 (Last.mk 0 5000)
    false false [] [1; 2; 3].

(** A calibrated unstable phase whose tick limit has been crossed. *)
Definition ex_calibrated : Internal :=
  ex_state ex_opts (ex_stats 1001 5000) (Lim.mk 4000 60) 1500 (Last.mk 0 0)
    false false [] [1; 2; 3].


(** Two assumptions and no level above theirs. *)
Definition ex_only_assumptions : Internal :=
  ex_state ex_opts (ex_stats 50 900) (Lim.mk 1000 60) 0 (Last.mk 0 0)
    false false [4; 5] [4; 5].

(** Two levels above no assumption, conflicts above the restart limit and
    the fast glue average above the slow one. *)
Definition ex_restart_due : Internal :=
  ex_state (Opts.mk false false 200 true 10 2 true) (ex_stats 70 900)
    (Lim.mk 1000 60) 0 (Last.mk 0 0) false false [] [1; 3].

(** [s'] has the options, the phase, the stabilization schedule, the
    averages, the assumptions and the decision stack of [s]. *)
Definition same_search (s s' : Internal) : Prop :=
  opts s' = opts s /\ stable s' = stable s /\
  inc_stabilize s' = inc_stabilize s /\
  Lim.stabilize (lim s') = Lim.stabilize (lim s) /\
  averages s' = averages s /\ assumptions s' = assumptions s /\
  level s' = level s /\ control s' = control s.

(** An unstable, calibrated phase in stabilize-only mode, past its tick
    limit, the reluctant generator firing. *)
Definition ex_only_unstable : Internal :=
  ex_state (Opts.mk true true 200 true 10 2 true) (ex_stats 1001 5000)
    (Lim.mk 4000 60) 1500 (Last.mk 0 0) false true [] [1; 2; 3].

(** ** Basic facts on the machine integers *)

Lemma to_int_id (z : Z) : in_int z -> to_int z = z.
Proof.
  unfold in_int, to_int, INT_MIN, INT_MAX; intros H.
  rewrite Z.mod_small; lia.
Qed.

Lemma to_int64_id (z : Z) : in_int64 z -> to_int64 z = z.
Proof.
  unfold in_int64, to_int64, INT64_MIN, INT64_MAX; intros H.
  rewrite Z.mod_small; lia.
Qed.

Lemma to_int64_range (z : Z) : in_int64 (to_int64 z).
Proof.
  unfold in_int64, to_int64, INT64_MIN, INT64_MAX.
  pose proof (Z.mod_pos_bound (z + 2 ^ 63) (2 ^ 64) ltac:(lia)). lia.
Qed.

Lemma to_size_t_id (z : Z) : 0 <= z < 2 ^ 64 -> to_size_t z = z.
Proof. unfold to_size_t; intros H; apply Z.mod_small; exact H. Qed.

Lemma int_max_value : INT_MAX = 2147483647.
Proof. reflexivity. Qed.

Lemma int64_max_value : INT64_MAX = 9223372036854775807.
Proof. reflexivity. Qed.

(** ** Reading the decision stack *)

Lemma control_decision_defined (s : Internal) (i : Z) :
  stack_consistent s -> 0 <= i <= level s ->
  exists d, control_decision s i = Done d.
Proof.
  intros [_ Hlen] Hi. unfold control_decision.
  destruct (Z.ltb_spec i 0) as [Hneg | _]; [lia |].
  destruct (nth_error (control s) (Z.to_nat i)) as [f |] eqn:E.
  - exists (decision f); reflexivity.
  - apply nth_error_None in E. lia.
Qed.

Lemma trivial_decisions_defined (s : Internal) :
  stack_consistent s -> above_assumptions 1 s ->
  exists d,
    control_decision s (Z.of_nat (length (assumptions s)) + 1) = Done d /\
    trivial_decisions s
    = Done (Z.of_nat (length (assumptions s)) + (if d =? 0 then 1 else 0)).
Proof.
  intros Hc Ha. pose proof Hc as [[Hl0 Hl1] _].
  unfold above_assumptions in Ha. rewrite int_max_value in Hl1.
  destruct (control_decision_defined s
              (Z.of_nat (length (assumptions s)) + 1) Hc) as [d Hd]; [lia |].
  exists d; split; [exact Hd |].
  unfold trivial_decisions.
  rewrite (to_size_t_id (Z.of_nat (length (assumptions s)) + 1)) by lia.
  rewrite Hd; cbn [bind].
  rewrite to_size_t_id by (destruct (d =? 0); lia).
  rewrite to_int_id; [reflexivity |].
  unfold in_int, INT_MIN; rewrite int_max_value.
  destruct (d =? 0); lia.
Qed.

(** ** The walk of [reuse_trail] *)

Section ReuseTrail.

Variable h : Heuristics.

(** The loop stops, within the fuel that [reuse_trail] gives it, at the
    first level whose next frame is a pseudo-decision or fails the test, or
    at the top of the stack. *)
Lemma reuse_walk_spec (test : Z -> bool) (s : Internal) :
  stack_consistent s ->
  forall (fuel : nat) (res : Z),
    0 <= res <= level s ->
    (Z.to_nat (level s - res) < fuel)%nat ->
    exists r,
      reuse_walk test s fuel res = Done r /\
      res <= r <= level s /\
      (forall l, res <= l < r ->
         exists d, control_decision s (l + 1) = Done d /\
                   d <> 0 /\ test d = true) /\
      (r < level s ->
         exists d, control_decision s (r + 1) = Done d /\
                   (d = 0 \/ test d = false)).
Proof.
  intros Hc. pose proof Hc as [[_ Hmax] _]. rewrite int_max_value in Hmax.
  induction fuel as [| fuel IH]; intros res Hres Hfuel; [lia |].
  cbn [reuse_walk].
  destruct (Z.ltb_spec res (level s)) as [Hlt | Hge].
  - rewrite to_int_id
      by (unfold in_int, INT_MIN; rewrite int_max_value; lia).
    destruct (control_decision_defined s (res + 1) Hc) as [d Hd]; [lia |].
    rewrite Hd; cbn [bind].
    destruct (Z.eqb_spec d 0) as [Hz | Hnz]; cbn [negb andb].
    + exists res; repeat split; try lia.
      intros _; exists d; auto.
    + destruct (test d) eqn:Ht.
      * destruct (IH (res + 1)) as (r & Hr & Hrange & Hbelow & Hstop);
          [lia | lia |].
        exists r; repeat split; try lia; [exact Hr | | exact Hstop].
        intros l Hl.
        destruct (Z.eq_dec l res) as [-> | Hne].
        -- exists d; auto.
        -- apply Hbelow; lia.
      * exists res; repeat split; try lia.
        intros _; exists d; auto.
  - exists res; repeat split; lia.
Qed.

(** With the reuse switched off the function is the identity on the state
    and returns the trivial decisions. *)
Lemma reuse_trail_disabled (s : Internal) (td : Z) :
  Opts.restartreusetrail (opts s) = false ->
  trivial_decisions s = Done td ->
  reuse_trail h s = Done (td, s).
Proof.
  intros Hoff Htd. unfold reuse_trail.
  rewrite Htd; cbn [bind]. rewrite Hoff. reflexivity.
Qed.

(** With the reuse switched on the function returns the level at which the
    walk stopped and counts the reused levels. *)
Lemma reuse_trail_enabled (s : Internal) :
  stack_consistent s -> above_assumptions 1 s ->
  Opts.restartreusetrail (opts s) = true ->
  exists td res,
    trivial_decisions s = Done td /\
    Z.of_nat (length (assumptions s)) <= td <= level s /\
    reuse_trail h s = Done (res, count_reused (res - td) s) /\
    td <= res <= level s /\
    (forall l, td <= l < res ->
       exists d, control_decision s (l + 1) = Done d /\ d <> 0 /\
                 reuse_test h s (next_decision_variable h s) d = true) /\
    (res < level s ->
       exists d, control_decision s (res + 1) = Done d /\
                 (d = 0 \/ reuse_test h s (next_decision_variable h s) d = false)).
Proof.
  intros Hc Ha Hon.
  destruct (trivial_decisions_defined s Hc Ha) as (d0 & _ & Htd).
  set (td := Z.of_nat (length (assumptions s)) + (if d0 =? 0 then 1 else 0))
    in *.
  assert (Hrange : Z.of_nat (length (assumptions s)) <= td <= level s).
  { unfold above_assumptions in Ha; subst td; destruct (d0 =? 0); lia. }
  destruct (reuse_walk_spec (reuse_test h s (next_decision_variable h s)) s Hc
              (S (Z.to_nat (level s - td))) td)
    as (res & Hwalk & Hres & Hbelow & Hstop); [lia | lia |].
  exists td, res. repeat split; try lia; try assumption.
  unfold reuse_trail. rewrite Htd; cbn [bind].
  rewrite Hon; cbn [negb]. rewrite Hwalk; cbn [bind].
  pose proof Hc as [[_ Hmax] _]. rewrite int_max_value in Hmax.
  rewrite to_int_id
    by (unfold in_int, INT_MIN; rewrite int_max_value; lia).
  reflexivity.
Qed.


(** The test of the loops says that the existing decision outranks the next
    decision variable. *)
Lemma reuse_test_outranks (s : Internal) (d : Z) :
  reuse_test h s (next_decision_variable h s) d = outranks_next h s d.
Proof.
  unfold reuse_test, outranks_next.
  destruct (use_scores h s); [reflexivity |].
  rewrite Z.gtb_ltb. reflexivity.
Qed.

(** [trivial_decisions] looks at the one frame above the assumption
    levels. *)
Lemma trivial_decisions_frame (s : Internal) (f : Level) :
  Z.of_nat (length (assumptions s)) + 1 <= INT_MAX ->
  nth_error (control s) (S (length (assumptions s))) = Some f ->
  trivial_decisions s
  = Done (Z.of_nat (length (assumptions s))
          + (if decision f =? 0 then 1 else 0)).
Proof.
  rewrite int_max_value. intros Hmax Hf.
  unfold trivial_decisions, control_decision.
  rewrite (to_size_t_id (Z.of_nat (length (assumptions s)) + 1)) by lia.
  destruct (Z.ltb_spec (Z.of_nat (length (assumptions s)) + 1) 0); [lia |].
  replace (Z.to_nat (Z.of_nat (length (assumptions s)) + 1))
    with (S (length (assumptions s))) by lia.
  rewrite Hf; cbn [bind].
  rewrite to_size_t_id by (destruct (decision f =? 0); lia).
  rewrite to_int_id; [reflexivity |].
  unfold in_int, INT_MIN; rewrite int_max_value.
  destruct (decision f =? 0); lia.
Qed.

(** C5: when the decision depth is at least the assumption count plus one,
    [reuse_trail] returns a level between the trivial decisions and the
    current level.  With the reuse switched off it returns the trivial
    decisions and leaves the state alone, and it returns the same level for
    every other decision stack that has the same frames up to that level
    (and, when the frame above the assumptions is a real decision, still a
    real decision there, so that the trivial decisions are the same). *)
Theorem reuse_trail_within_bounds (s : Internal) :
  stack_consistent s -> above_assumptions 1 s ->
  exists td res s',
    trivial_decisions s = Done td /\
    reuse_trail h s = Done (res, s') /\
    td <= res <= level s /\
    (Opts.restartreusetrail (opts s) = false ->
     res = td /\ s' = s /\
     forall frames : list Level,
       (forall i : nat, (i <= Z.to_nat td)%nat ->
          nth_error frames i = nth_error (control s) i) ->
       (td = Z.of_nat (length (assumptions s)) ->
        exists f, nth_error frames (S (length (assumptions s))) = Some f /\
                  decision f <> 0) ->
       reuse_trail h (set_control frames s)
       = Done (td, set_control frames s)).
Proof.
  intros Hc Ha.
  pose proof Hc as [[_ Hmax] Hlen]. unfold above_assumptions in Ha.
  destruct (nth_error (control s) (S (length (assumptions s))))
    as [f0 |] eqn:Hf0; [| apply nth_error_None in Hf0; lia].
  pose proof (trivial_decisions_frame s f0 ltac:(lia) Hf0) as Htd.
  set (td := Z.of_nat (length (assumptions s))
             + (if decision f0 =? 0 then 1 else 0)) in *.
  destruct (Opts.restartreusetrail (opts s)) eqn:Hsw.
  - destruct (reuse_trail_enabled s Hc Ha Hsw)
      as (td' & res & Htd' & _ & Hrun & Hres & _).
    rewrite Htd in Htd'; injection Htd' as <-.
    exists td, res, (count_reused (res - td) s).
    split; [exact Htd |]. split; [exact Hrun |]. split; [exact Hres |].
    discriminate.
  - assert (Hrange : td <= level s)
      by (subst td; destruct (decision f0 =? 0); lia).
    exists td, td, s.
    split; [exact Htd |].
    split; [apply reuse_trail_disabled; assumption |].
    split; [lia |].
    intros _. split; [reflexivity |]. split; [reflexivity |].
    intros frames Hsame Hreal.
    {
      apply reuse_trail_disabled; [exact Hsw |].
      destruct (Z.eqb_spec (decision f0) 0) as [Hz | Hnz].
      * assert (Hf : nth_error frames (S (length (assumptions s)))
                     = Some f0).
        { rewrite Hsame; [exact Hf0 | subst td; lia]. }
        rewrite (trivial_decisions_frame (set_control frames s) f0);
          cbn [set_control assumptions control]; try assumption; try lia.
        subst td. rewrite Hz. reflexivity.
      * destruct Hreal as (f & Hf & Hd); [subst td; lia |].
        rewrite (trivial_decisions_frame (set_control frames s) f);
          cbn [set_control assumptions control]; try assumption; try lia.
        subst td. destruct (Z.eqb_spec (decision f) 0); [contradiction |].
        reflexivity.
    }
Qed.

(** C1 (amended): with the reuse switched on, [reuse_trail] starts at the
    trivial decisions and goes up one level at a time while the frame above
    holds a real decision that outranks the next decision variable (in
    activity mode: that was bumped strictly later than it); it stops at the
    first level where this fails or at the top of the stack. *)
Theorem reuse_trail_walks_while_outranked (s : Internal) :
  stack_consistent s -> above_assumptions 1 s ->
  Opts.restartreusetrail (opts s) = true ->
  exists td res s',
    trivial_decisions s = Done td /\
    reuse_trail h s = Done (res, s') /\
    td <= res <= level s /\
    (forall l, td <= l < res ->
       exists d, control_decision s (l + 1) = Done d /\ d <> 0 /\
                 outranks_next h s d = true) /\
    (res < level s ->
       exists d, control_decision s (res + 1) = Done d /\
                 (d = 0 \/ outranks_next h s d = false)) /\
    (use_scores h s = false ->
     forall d, outranks_next h s d = true
               <-> bumped h s (next_decision_variable h s) < bumped h s d).
Proof.
  intros Hc Ha Hon.
  destruct (reuse_trail_enabled s Hc Ha Hon)
    as (td & res & Htd & _ & Hrun & Hres & Hbelow & Hstop).
  exists td, res, (count_reused (res - td) s).
  split; [exact Htd |]. split; [exact Hrun |]. split; [exact Hres |].
  split; [| split].
  - intros l Hl. destruct (Hbelow l Hl) as (d & Hd & Hnz & Ht).
    exists d. rewrite <- reuse_test_outranks. auto.
  - intros Hlt. destruct (Hstop Hlt) as (d & Hd & Hfail).
    exists d. rewrite <- reuse_test_outranks. auto.
  - intros Hq d. unfold outranks_next. rewrite Hq. apply Z.ltb_lt.
Qed.

(** The statistics after a reuse of [r] levels. *)
Lemma count_reused_positive (s : Internal) (r : Z) :
  0 < r <= level s -> reuse_counters_fit s ->
  count_reused r s
  = set_stats
      (Stats.mk (Stats.conflicts (stats s)) (Stats.ticks_search (stats s))
         (Stats.stabphases (stats s)) (Stats.restarts (stats s))
         (Stats.restartlevels (stats s)) (Stats.restartstable (stats s))
         (Stats.reused (stats s) + 1)
         (Stats.reusedlevels (stats s) + r)
         (if stable s then Stats.reusedstable (stats s) + 1
          else Stats.reusedstable (stats s)))
      s.
Proof.
  intros Hr (Hreused & [Hlo Hhi] & Hstable).
  unfold count_reused.
  destruct (Z.ltb_spec 0 r) as [_ | Hle]; [| lia].
  cbn [set_stats stats stable Stats.set_reused Stats.set_reusedlevels
       Stats.set_reusedstable Stats.reused Stats.reusedlevels
       Stats.reusedstable Stats.conflicts Stats.ticks_search Stats.stabphases
       Stats.restarts Stats.restartlevels Stats.restartstable].
  rewrite (to_int64_id (Stats.reused (stats s) + 1)) by exact Hreused.
  rewrite (to_int64_id (Stats.reusedlevels (stats s) + r))
    by (unfold in_int64; lia).
  destruct (stable s); cbn; [| reflexivity].
  rewrite (to_int64_id (Stats.reusedstable (stats s) + 1)) by exact Hstable.
  reflexivity.
Qed.

Lemma count_reused_none (s : Internal) (r : Z) :
  r <= 0 -> count_reused r s = s.
Proof.
  intros Hr. unfold count_reused.
  destruct (Z.ltb_spec 0 r); [lia | reflexivity].
Qed.

(** C2: whenever the level that [reuse_trail] returns exceeds the trivial
    decisions, the number of reuses grows by one, the reused levels grow by
    the difference and the reuses in stable phase grow by one exactly when
    the phase is stable; otherwise the state is untouched.  In the scenario
    with activity ranking, no assumptions and three real decisions of which
    the first two were bumped after the next decision variable and the third
    was not, the result is 2, with one more reuse and two more reused
    levels. *)
Theorem reuse_trail_counts_reused_levels (s : Internal) :
  stack_consistent s -> above_assumptions 1 s -> reuse_counters_fit s ->
  (exists td res s',
     trivial_decisions s = Done td /\
     reuse_trail h s = Done (res, s') /\
     (td < res ->
      s' = set_stats
             (Stats.mk (Stats.conflicts (stats s))
                (Stats.ticks_search (stats s)) (Stats.stabphases (stats s))
                (Stats.restarts (stats s)) (Stats.restartlevels (stats s))
                (Stats.restartstable (stats s))
                (Stats.reused (stats s) + 1)
                (Stats.reusedlevels (stats s) + (res - td))
                (if stable s then Stats.reusedstable (stats s) + 1
                 else Stats.reusedstable (stats s)))
             s) /\
     (res <= td -> s' = s))
  /\
  (Opts.restartreusetrail (opts s) = true ->
   use_scores h s = false ->
   assumptions s = [] -> level s = 3 ->
   forall (f0 : Level) (d1 d2 d3 : Z),
     control s = [f0; mkLevel d1; mkLevel d2; mkLevel d3] ->
     d1 <> 0 -> d2 <> 0 -> d3 <> 0 ->
     bumped h s d1 > bumped h s (next_decision_variable h s) ->
     bumped h s d2 > bumped h s (next_decision_variable h s) ->
     bumped h s d3 <= bumped h s (next_decision_variable h s) ->
     exists s',
       trivial_decisions s = Done 0 /\
       reuse_trail h s = Done (2, s') /\
       Stats.reused (stats s') = Stats.reused (stats s) + 1 /\
       Stats.reusedlevels (stats s') = Stats.reusedlevels (stats s) + 2).
Proof.
  intros Hc Ha Hfit.
  split.
  - destruct (Opts.restartreusetrail (opts s)) eqn:Hsw.
    + destruct (reuse_trail_enabled s Hc Ha Hsw)
        as (td & res & Htd & Htdr & Hrun & Hres & _).
      exists td, res, (count_reused (res - td) s).
      split; [exact Htd |]. split; [exact Hrun |].
      split; intros Hcmp.
      * apply count_reused_positive; [lia | exact Hfit].
      * apply count_reused_none; lia.
    + destruct (trivial_decisions_defined s Hc Ha) as (d0 & _ & Htd).
      eexists _, _, s.
      split; [exact Htd |].
      split; [apply reuse_trail_disabled; [exact Hsw | exact Htd] |].
      split; [lia | reflexivity].
  - intros Hon Hq Hnone Hlevel f0 d1 d2 d3 Hctl Hd1 Hd2 Hd3 Hb1 Hb2 Hb3.
    assert (Hread : forall i f, nth_error (control s) (Z.to_nat i) = Some f ->
                      0 <= i -> control_decision s i = Done (decision f)).
    { intros i f Hf Hi. unfold control_decision.
      destruct (Z.ltb_spec i 0); [lia |]. rewrite Hf. reflexivity. }
    assert (Htest : forall d,
              reuse_test h s (next_decision_variable h s) d
              = (bumped h s d >? bumped h s (next_decision_variable h s))).
    { intros d. unfold reuse_test. rewrite Hq. reflexivity. }
    destruct (reuse_trail_enabled s Hc Ha Hon)
      as (td & res & Htd & _ & Hrun & Hres & Hbelow & Hstop).
    assert (Htd0 : td = 0).
    { rewrite (trivial_decisions_frame s (mkLevel d1)) in Htd.
      - rewrite Hnone in Htd. cbn [length decision] in Htd.
        destruct (Z.eqb_spec d1 0); [contradiction |].
        injection Htd as <-. reflexivity.
      - rewrite Hnone, int_max_value. cbn. lia.
      - rewrite Hnone, Hctl. reflexivity. }
    subst td.
    assert (Hres2 : res = 2).
    { rewrite Hlevel in Hres, Hstop.
      assert (Hcases : res = 0 \/ res = 1 \/ res = 2 \/ res = 3) by lia.
      destruct Hcases as [-> | [-> | [-> | ->]]]; [| | reflexivity |].
      - destruct Hstop as (d & Hd & Hfail); [lia |].
        rewrite (Hread (0 + 1) (mkLevel d1)) in Hd
          by (rewrite ?Hctl; cbn; (reflexivity || lia)).
        injection Hd as <-; cbn [decision] in Hfail.
        rewrite Htest in Hfail. destruct Hfail as [? | Hfail]; [lia |].
        rewrite Z.gtb_ltb, Z.ltb_ge in Hfail. lia.
      - destruct Hstop as (d & Hd & Hfail); [lia |].
        rewrite (Hread (1 + 1) (mkLevel d2)) in Hd
          by (rewrite ?Hctl; cbn; (reflexivity || lia)).
        injection Hd as <-; cbn [decision] in Hfail.
        rewrite Htest in Hfail. destruct Hfail as [? | Hfail]; [lia |].
        rewrite Z.gtb_ltb, Z.ltb_ge in Hfail. lia.
      - destruct (Hbelow 2) as (d & Hd & _ & Hpass); [lia |].
        rewrite (Hread (2 + 1) (mkLevel d3)) in Hd
          by (rewrite ?Hctl; cbn; (reflexivity || lia)).
        injection Hd as <-; cbn [decision] in Hpass.
        rewrite Htest, Z.gtb_ltb, Z.ltb_lt in Hpass. lia. }
    subst res.
    exists (count_reused (2 - 0) s).
    split; [exact Htd |]. split; [exact Hrun |].
    rewrite count_reused_positive by (lia || exact Hfit).
    cbn. split; [reflexivity | lia].
Qed.


(** [reuse_trail] returns on every consistent state with enough depth. *)
Lemma reuse_trail_defined (s : Internal) :
  stack_consistent s -> above_assumptions 1 s ->
  exists td res,
    trivial_decisions s = Done td /\
    reuse_trail h s = Done (res, count_reused (res - td) s) /\
    0 <= td <= res /\ res <= level s.
Proof.
  intros Hc Ha.
  destruct (Opts.restartreusetrail (opts s)) eqn:Hsw.
  - destruct (reuse_trail_enabled s Hc Ha Hsw)
      as (td & res & Htd & Htdr & Hrun & Hres & _).
    exists td, res. repeat split; try assumption; lia.
  - destruct (trivial_decisions_defined s Hc Ha) as (d0 & _ & Htd).
    unfold above_assumptions in Ha.
    eexists _, _. split; [exact Htd |].
    rewrite Z.sub_diag, count_reused_none by lia.
    split; [apply reuse_trail_disabled; [exact Hsw | exact Htd] |].
    destruct (d0 =? 0); lia.
Qed.

(** [count_reused] writes the three reuse counters only. *)
Lemma count_reused_frame (r : Z) (s : Internal) :
  let s' := count_reused r s in
  opts s' = opts s /\ lim s' = lim s /\ level s' = level s /\
  control s' = control s /\ stable s' = stable s /\
  Stats.conflicts (stats s') = Stats.conflicts (stats s) /\
  Stats.restarts (stats s') = Stats.restarts (stats s) /\
  Stats.restartlevels (stats s') = Stats.restartlevels (stats s) /\
  Stats.restartstable (stats s') = Stats.restartstable (stats s).
Proof.
  unfold count_reused.
  destruct (0 <? r); cbn; [| repeat split; reflexivity].
  destruct (stable s) eqn:Hstable; cbn; rewrite ?Hstable;
    repeat split; reflexivity.
Qed.

(** C9: [restart] adds one to the restart count and the level before the
    restart to the restart depth, adds one to the stable-restart count
    exactly when the phase is stable, backtracks to the level that
    [reuse_trail] returns (called after these counters are written), and
    then sets the restart limit to the conflict count plus the base restart
    interval. *)
Theorem restart_counts_and_backtracks (s : Internal) :
  stack_consistent s -> above_assumptions 1 s -> restart_counters_fit s ->
  exists res s1 s',
    reuse_trail h (restart_count s) = Done (res, s1) /\
    restart h s = Done s' /\
    Stats.restarts (stats s') = Stats.restarts (stats s) + 1 /\
    Stats.restartlevels (stats s')
    = Stats.restartlevels (stats s) + level s /\
    Stats.restartstable (stats s')
    = (if stable s then Stats.restartstable (stats s) + 1
       else Stats.restartstable (stats s)) /\
    s' = STOP prof_restart
           (report "R"%char
              (set_lim
                 (Lim.set_restart
                    (Stats.conflicts (stats s) + Opts.restartint (opts s))
                    (lim s1))
                 (backtrack res s1))) /\
    level s' = res /\
    control s' = firstn (Z.to_nat (res + 1)) (control s) /\
    Lim.restart (lim s')
    = Stats.conflicts (stats s) + Opts.restartint (opts s).
Proof.
  intros Hc Ha (Hrestarts & Hlevels & Hstable & Hlimit).
  set (s0 := restart_count s).
  assert (Hs0 : opts s0 = opts s /\ lim s0 = lim s /\ level s0 = level s /\
                control s0 = control s /\ assumptions s0 = assumptions s /\
                Stats.conflicts (stats s0) = Stats.conflicts (stats s) /\
                Stats.restarts (stats s0) = Stats.restarts (stats s) + 1 /\
                Stats.restartlevels (stats s0)
                = Stats.restartlevels (stats s) + level s /\
                Stats.restartstable (stats s0)
                = (if stable s then Stats.restartstable (stats s) + 1
                   else Stats.restartstable (stats s))).
  { subst s0; unfold restart_count.
    cbn [START emit set_stats stats stable level Stats.set_restarts
         Stats.set_restartlevels Stats.restarts Stats.restartlevels
         Stats.restartstable Stats.conflicts].
    destruct (stable s); cbn;
      rewrite ?(to_int64_id _ Hrestarts), ?(to_int64_id _ Hlevels),
        ?(to_int64_id _ Hstable); repeat split; reflexivity. }
  destruct Hs0 as (Ho & Hl & Hlv & Hct & Has & Hcf & Hr1 & Hr2 & Hr3).
  assert (Hc0 : stack_consistent s0)
    by (unfold stack_consistent; rewrite Hlv, Hct; exact Hc).
  assert (Ha0 : above_assumptions 1 s0)
    by (unfold above_assumptions; rewrite Hlv, Has; exact Ha).
  destruct (reuse_trail_defined s0 Hc0 Ha0)
    as (td & res & Htd & Hrun & Htdr & Hres).
  pose proof (count_reused_frame (res - td) s0) as Hframe.
  set (s1 := count_reused (res - td) s0) in *. cbv zeta in Hframe.
  destruct Hframe as (Ho1 & Hl1 & Hlv1 & Hct1 & Hst1 & Hcf1 & Hq1 & Hq2 & Hq3).
  assert (Hback : level (backtrack res s1) = res /\
                  control (backtrack res s1)
                  = firstn (Z.to_nat (res + 1)) (control s) /\
                  stats (backtrack res s1) = stats s1 /\
                  opts (backtrack res s1) = opts s1 /\
                  lim (backtrack res s1) = lim s1).
  { unfold backtrack. destruct (Z.ltb_spec res (level s1)) as [Hlt | Hge].
    - cbn. rewrite Hct1, Hct. repeat split; reflexivity.
    - assert (res = level s) by lia. subst res.
      repeat split; try reflexivity; [lia |].
      rewrite Hct1, Hct. symmetry. apply firstn_all2.
      destruct Hc as [_ Hlen]. lia. }
  destruct Hback as (Hb1 & Hb2 & Hb3 & Hb4 & Hb5).
  eexists res, s1, _.
  split; [exact Hrun |].
  assert (Hrestart :
    restart h s
    = Done (STOP prof_restart
              (report "R"%char
                 (set_lim
                    (Lim.set_restart
                       (Stats.conflicts (stats s) + Opts.restartint (opts s))
                       (lim s1))
                    (backtrack res s1))))).
  { unfold restart. fold s0. rewrite Hrun. cbn [bind fst snd].
    rewrite Hb3, Hb4, Hb5, Hcf1, Hcf, Ho1, Ho.
    rewrite (to_int64_id _ Hlimit). reflexivity. }
  split; [exact Hrestart |].
  cbn [STOP report emit set_lim stats level control lim Lim.set_restart
       Lim.restart].
  rewrite Hb3, Hq1, Hq2, Hq3, Hr1, Hr2, Hr3.
  repeat split; assumption || reflexivity.
Qed.

End ReuseTrail.

(** ** The phase switch *)

(** What [stabilizing_flip] returns and writes. *)
Lemma stabilizing_flip_fields (s : Internal) :
  let s' := snd (stabilizing_flip s) in
  let ticks := Stats.ticks_search (stats s) in
  let sum := to_int64 (ticks + flip_interval s) in
  fst (stabilizing_flip s) = negb (stable s) /\
  stable s' = negb (stable s) /\
  inc_stabilize s' = flip_interval s /\
  Lim.stabilize (lim s')
  = (if sum <=? ticks then to_int64 (ticks + 1) else sum) /\
  Lim.restart (lim s') = Lim.restart (lim s) /\
  opts s' = opts s /\
  Stats.conflicts (stats s') = Stats.conflicts (stats s) /\
  Stats.ticks_search (stats s') = Stats.ticks_search (stats s) /\
  Stats.stabphases (stats s')
  = (if stable s then Stats.stabphases (stats s)
     else to_int64 (Stats.stabphases (stats s) + 1)) /\
  averages s'
  = Averages.mk (Averages.saved (averages s))
      (Averages.current (averages s)) /\
  reluctant s' = reluctant s /\ level s' = level s /\
  assumptions s' = assumptions s /\ control s' = control s /\
  last s' = last s.
Proof.
  destruct s as [o st l i la av stb rel lv asm ct ev].
  destruct st as [cf tk sp r1 r2 r3 u1 u2 u3], l as [ls lr].
  destruct stb, i as [| p | p];
    cbv beta iota zeta delta
      [stabilizing_flip flip_interval report STOP START emit phase_profile
       swap_averages set_stats set_lim set_inc_stabilize set_averages
       set_stable opts stats lim inc_stabilize last averages stable
       reluctant level assumptions control events
       Stats.set_stabphases Stats.conflicts Stats.ticks_search
       Stats.stabphases Stats.restarts Stats.restartlevels
       Stats.restartstable Stats.reused Stats.reusedlevels
       Stats.reusedstable Lim.set_stabilize Lim.stabilize Lim.restart
       Last.stabilize_ticks Averages.current Averages.saved negb fst snd
       Z.eqb];
    match goal with
    | |- context [?a <=? ?b] => destruct (a <=? b)
    end;
    repeat split; reflexivity.
Qed.

(** The calls of [stabilizing] that do not switch the phase leave the state
    as it is. *)
Lemma stabilizing_cases (s : Internal) :
  (crosses_limit s = true /\ stabilizing s = stabilizing_flip s) \/
  (crosses_limit s = false /\ snd (stabilizing s) = s /\
   fst (stabilizing s)
   = Opts.stabilize (opts s)
     && ((stable s && Opts.stabilizeonly (opts s))
         || (negb (inc_stabilize s =? 0) && stable s))).
Proof.
  unfold stabilizing, crosses_limit.
  generalize (stabilizing_flip s) as flipped. intros flipped.
  destruct (Opts.stabilize (opts s)); cbn; [| right; auto].
  destruct (stable s) eqn:Hst; destruct (Opts.stabilizeonly (opts s)); cbn;
    try (right; split; [reflexivity | split; reflexivity]);
    destruct (inc_stabilize s =? 0); cbn;
    match goal with
    | |- context [?a <=? ?b] =>
        rewrite (Z.ltb_antisym a b); destruct (a <=? b)
    end; cbn; rewrite ?Hst; auto.
Qed.

(** Nothing in [stabilizing] writes the options, the counters of conflicts
    and ticks, the restart limit or the decision stack. *)
Lemma stabilizing_frame (s : Internal) :
  let s' := snd (stabilizing s) in
  opts s' = opts s /\
  Stats.conflicts (stats s') = Stats.conflicts (stats s) /\
  Stats.ticks_search (stats s') = Stats.ticks_search (stats s) /\
  Lim.restart (lim s') = Lim.restart (lim s) /\
  reluctant s' = reluctant s /\ level s' = level s /\
  assumptions s' = assumptions s /\ control s' = control s.
Proof.
  destruct (stabilizing_cases s) as [[_ Hflip] | (_ & Hsame & _)].
  - rewrite Hflip.
    pose proof (stabilizing_flip_fields s) as Hf; cbv zeta in Hf.
    cbv zeta. intuition congruence.
  - cbv zeta. rewrite Hsame. repeat split; reflexivity.
Qed.

(** C4: a call of [stabilizing] that switches the phase leaves a limit
    strictly above the tick count of the call: the limit is the tick count
    plus the interval as the call leaves it, unless this sum does not exceed
    the tick count (which, while the sum fits [int64_t], is the case of an
    interval of at most 0), and then it is the tick count plus one. *)
Theorem stabilizing_flip_raises_limit (s : Internal) :
  in_int64 (Stats.ticks_search (stats s)) ->
  Stats.ticks_search (stats s) < INT64_MAX ->
  stable (snd (stabilizing s)) <> stable s ->
  let s' := snd (stabilizing s) in
  let ticks := Stats.ticks_search (stats s) in
  let sum := to_int64 (ticks + inc_stabilize s') in
  ticks < Lim.stabilize (lim s') /\
  Lim.stabilize (lim s') = (if sum <=? ticks then ticks + 1 else sum) /\
  (in_int64 (ticks + inc_stabilize s') ->
   sum = ticks + inc_stabilize s' /\
   (sum <=? ticks) = (inc_stabilize s' <=? 0)).
Proof.
  intros Hrange Hmax Hflip.
  destruct (stabilizing_cases s) as [[_ Hcase] | (_ & Hsame & _)];
    [| rewrite Hsame in Hflip; contradiction].
  cbv zeta. rewrite Hcase.
  pose proof (stabilizing_flip_fields s) as Hf; cbv zeta in Hf.
  destruct Hf as (_ & _ & Hinc & Hlim & _).
  rewrite Hinc, Hlim.
  rewrite (to_int64_id (Stats.ticks_search (stats s) + 1))
    by (unfold in_int64 in *; lia).
  split; [| split].
  - destruct (Z.leb_spec
                (to_int64 (Stats.ticks_search (stats s) + flip_interval s))
                (Stats.ticks_search (stats s))); lia.
  - reflexivity.
  - intros Hfits. rewrite (to_int64_id _ Hfits). split; [reflexivity |].
    destruct (Z.leb_spec (Stats.ticks_search (stats s) + flip_interval s)
                (Stats.ticks_search (stats s)));
      destruct (Z.leb_spec (flip_interval s) 0); lia || reflexivity.
Qed.

(** ** The restart test *)

(** The depth guard of line 75 on integers that fit their types. *)
Lemma depth_guard (s : Internal) :
  0 <= level s <= INT_MAX ->
  Z.of_nat (length (assumptions s)) + 2 < 2 ^ 64 ->
  (to_size_t (level s) <? to_size_t (Z.of_nat (length (assumptions s)) + 2))
  = (level s <? Z.of_nat (length (assumptions s)) + 2).
Proof.
  rewrite int_max_value. intros Hl Ha.
  rewrite !to_size_t_id by lia. reflexivity.
Qed.

(** [restarting] once the feature flag and the depth guard are passed. *)
Lemma restarting_past_guards (s : Internal) :
  Opts.restart (opts s) = true ->
  0 <= level s <= INT_MAX -> above_assumptions 2 s ->
  restarting s
  = let s1 := snd (stabilizing s) in
    if fst (stabilizing s) then (reluctant s1, s1)
    else if Stats.conflicts (stats s) <=? Lim.restart (lim s)
    then (false, s1)
    else ((restart_margin s * Glue.slow (Averages.current (averages s1))
           <=? Glue.fast (Averages.current (averages s1)))%float, s1).
Proof.
  intros Hon Hl Ha. unfold above_assumptions in Ha.
  unfold restarting. rewrite Hon; cbn [negb].
  rewrite depth_guard by (rewrite ?int_max_value in *; lia).
  destruct (Z.ltb_spec (level s) (Z.of_nat (length (assumptions s)) + 2));
    [lia |].
  pose proof (stabilizing_frame s) as Hf; cbv zeta in Hf.
  destruct Hf as (Ho & Hc & _ & Hr & _).
  unfold restart_margin.
  destruct (stabilizing s) as [b s1]; cbn [fst snd] in *.
  rewrite Ho, Hc, Hr. reflexivity.
Qed.

(** What [stabilizing] returns does not depend on the glue averages. *)
Lemma stabilizing_ignores_averages (a : Averages.t) (s : Internal) :
  fst (stabilizing (set_averages a s)) = fst (stabilizing s).
Proof.
  destruct (stabilizing_cases s) as [[Hx Hflip] | (Hx & _ & Hfst)];
    destruct (stabilizing_cases (set_averages a s))
      as [[Hy Hflip'] | (Hy & _ & Hfst')];
    try (change (crosses_limit (set_averages a s)) with (crosses_limit s)
           in Hy; congruence).
  - rewrite Hflip, Hflip'.
    pose proof (stabilizing_flip_fields s) as H1.
    pose proof (stabilizing_flip_fields (set_averages a s)) as H2.
    cbv zeta in *. destruct H1 as [-> _], H2 as [-> _]. reflexivity.
  - rewrite Hfst, Hfst'. reflexivity.
Qed.

(** When the phase flag is unstable after the call, [stabilizing] has
    reported the unstable phase. *)
Lemma unstable_phase_reported (s : Internal) :
  stable (snd (stabilizing s)) = false -> fst (stabilizing s) = false.
Proof.
  destruct (stabilizing_cases s) as [[_ Hflip] | (_ & Hsame & Hfst)].
  - rewrite Hflip.
    pose proof (stabilizing_flip_fields s) as Hf; cbv zeta in Hf.
    destruct Hf as (-> & -> & _). auto.
  - rewrite Hsame, Hfst. intros ->.
    destruct (Opts.stabilize (opts s)); cbn [andb]; [| reflexivity].
    rewrite andb_false_r. reflexivity.
Qed.

(** C6: [restarting] returns false when the restart feature is disabled,
    when the decision depth is less than the assumption count plus 2, and
    when [stabilizing] reports the unstable phase and the conflict count does
    not exceed the restart limit, whatever the glue averages are. *)
Theorem restarting_false_cases (s : Internal) :
  (Opts.restart (opts s) = false -> restarting s = (false, s)) /\
  (0 <= level s <= INT_MAX ->
   Z.of_nat (length (assumptions s)) + 2 < 2 ^ 64 ->
   level s < Z.of_nat (length (assumptions s)) + 2 ->
   restarting s = (false, s)) /\
  (fst (stabilizing s) = false ->
   Stats.conflicts (stats s) <= Lim.restart (lim s) ->
   fst (restarting s) = false /\
   forall a : Averages.t, fst (restarting (set_averages a s)) = false).
Proof.
  split; [| split].
  - intros Hoff. unfold restarting. rewrite Hoff. reflexivity.
  - intros Hl Ha Hshallow. unfold restarting.
    destruct (Opts.restart (opts s)); cbn [negb]; [| reflexivity].
    rewrite depth_guard by assumption.
    destruct (Z.ltb_spec (level s) (Z.of_nat (length (assumptions s)) + 2));
      [reflexivity | lia].
  - intros Hunstable Hgate.
    assert (Hany : forall s0 : Internal,
              fst (stabilizing s0) = false ->
              Stats.conflicts (stats s0) <= Lim.restart (lim s0) ->
              fst (restarting s0) = false).
    { intros s0 Hun Hle. unfold restarting.
      destruct (Opts.restart (opts s0)); cbn [negb]; [| reflexivity].
      destruct (_ <? _); [reflexivity |].
      pose proof (stabilizing_frame s0) as Hf; cbv zeta in Hf.
      destruct Hf as (_ & Hc & _ & Hr & _).
      destruct (stabilizing s0) as [b s1]; cbn [fst snd] in *.
      subst b. rewrite Hc, Hr.
      destruct (Z.leb_spec (Stats.conflicts (stats s0))
                  (Lim.restart (lim s0))); [reflexivity | lia]. }
    split; [apply Hany; assumption |].
    intros a. apply Hany.
    + rewrite stabilizing_ignores_averages. exact Hunstable.
    + exact Hgate.
Qed.

(** C3: with the restart feature enabled, at least two levels above the
    assumptions, [stabilizing] reporting the unstable phase and the conflict
    count above the restart limit, [restarting] returns true exactly when
    [margin * slow <= fast] on the doubles, for the glue averages in force
    after the call of [stabilizing] and [margin = (100 + restartmargin) /
    100]; with margin 0, fast average 10 and slow average 4 it returns
    true. *)
Theorem restarting_compares_glue_averages (s : Internal) :
  Opts.restart (opts s) = true ->
  0 <= level s <= INT_MAX -> above_assumptions 2 s ->
  fst (stabilizing s) = false ->
  Lim.restart (lim s) < Stats.conflicts (stats s) ->
  let glue := Averages.current (averages (snd (stabilizing s))) in
  restart_margin s
  = ((100 + double_of_Z (Opts.restartmargin (opts s))) / 100)%float /\
  (fst (restarting s) = true
   <-> (restart_margin s * Glue.slow glue <=? Glue.fast glue)%float = true) /\
  (Opts.restartmargin (opts s) = 0 ->
   Glue.fast glue = 10%float -> Glue.slow glue = 4%float ->
   fst (restarting s) = true).
Proof.
  intros Hon Hl Ha Hunstable Hgate. cbv zeta.
  rewrite (restarting_past_guards s Hon Hl Ha). cbv zeta.
  rewrite Hunstable.
  destruct (Z.leb_spec (Stats.conflicts (stats s)) (Lim.restart (lim s)));
    [lia |].
  cbn [fst]. split; [reflexivity |]. split; [reflexivity |].
  intros Hmargin Hfast Hslow.
  unfold restart_margin. rewrite Hmargin, Hfast, Hslow.
  vm_compute. reflexivity.
Qed.

(** ** Stabilize-only mode *)

(** In stabilize-only mode with the stabilization enabled, a stable phase
    makes [stabilizing] return at line 22. *)
Lemma stabilizing_stable_only (s : Internal) :
  Opts.stabilize (opts s) = true ->
  Opts.stabilizeonly (opts s) = true -> stable s = true ->
  stabilizing s = (true, s).
Proof.
  intros Hon Honly Hst. unfold stabilizing. rewrite Hon, Honly, Hst.
  reflexivity.
Qed.

Lemma restarting_stable_only (s : Internal) :
  Opts.stabilize (opts s) = true ->
  Opts.stabilizeonly (opts s) = true -> stable s = true ->
  snd (restarting s) = s /\
  (Opts.restart (opts s) = true ->
   0 <= level s <= INT_MAX -> above_assumptions 2 s ->
   restarting s = (reluctant s, s)).
Proof.
  intros Hon Honly Hst. split.
  - unfold restarting.
    destruct (negb (Opts.restart (opts s))); [reflexivity |].
    destruct (_ <? _); [reflexivity |].
    rewrite (stabilizing_stable_only s Hon Honly Hst). reflexivity.
  - intros Hr Hl Ha. rewrite (restarting_past_guards s Hr Hl Ha).
    rewrite (stabilizing_stable_only s Hon Honly Hst). reflexivity.
Qed.

(** With the stabilization enabled, stabilize-only mode configured and
    the phase stable, the phase stays stable over every run
    of the search (calls of [stabilizing] and [restarting] and steps of the
    rest of the solver, which writes neither the options nor the phase
    flag).  At every state of such a run [stabilizing] returns true and
    changes nothing, and [restarting], with the restart feature enabled and
    the depth guard passed, returns the fire signal of the reluctant
    generator whatever the glue averages are. *)
Theorem stabilize_only_is_sticky (s : Internal) :
  Opts.stabilize (opts s) = true ->
  Opts.stabilizeonly (opts s) = true ->
  stable s = true ->
  forall s' : Internal,
    search_run s s' ->
    stable s' = true /\
    stabilizing s' = (true, s') /\
    (Opts.restart (opts s') = true ->
     0 <= level s' <= INT_MAX -> above_assumptions 2 s' ->
     restarting s' = (reluctant s', s') /\
     forall a : Averages.t,
       restarting (set_averages a s') = (reluctant s', set_averages a s')).
Proof.
  intros Hon Honly Hst s' Hrun.
  assert (Hinv : opts s' = opts s /\ stable s' = true).
  { induction Hrun as [| s1 s2 _ [Ho Hs] Hstep]; [auto |].
    assert (Hon1 : Opts.stabilize (opts s1) = true) by (rewrite Ho; exact Hon).
    assert (Honly1 : Opts.stabilizeonly (opts s1) = true)
      by (rewrite Ho; exact Honly).
    destruct Hstep as [s2 [Ho2 Hs2] | |].
    - split; congruence.
    - rewrite (stabilizing_stable_only s1 Hon1 Honly1 Hs). auto.
    - destruct (restarting_stable_only s1 Hon1 Honly1 Hs) as [-> _]. auto. }
  destruct Hinv as [Ho Hs].
  assert (Hon' : Opts.stabilize (opts s') = true) by (rewrite Ho; exact Hon).
  assert (Honly' : Opts.stabilizeonly (opts s') = true)
    by (rewrite Ho; exact Honly).
  split; [exact Hs |].
  split; [apply stabilizing_stable_only; assumption |].
  intros Hr Hl Ha.
  split; [apply restarting_stable_only; assumption |].
  intros a.
  apply (restarting_stable_only (set_averages a s')); assumption.
Qed.

(** [restarting] writes the state through its call of [stabilizing]
    only. *)
Lemma restarting_state (s : Internal) :
  snd (restarting s) = s \/ snd (restarting s) = snd (stabilizing s).
Proof.
  unfold restarting.
  destruct (negb (Opts.restart (opts s))); [left; reflexivity |].
  destruct (_ <? _); [left; reflexivity |].
  right. destruct (stabilizing s) as [b s1]; cbn [snd].
  destruct b; [reflexivity |].
  destruct (_ <=? _); reflexivity.
Qed.

(** No step of a run writes the options. *)
Lemma run_keeps_options (s s' : Internal) :
  search_run s s' -> opts s' = opts s.
Proof.
  intros Hrun. induction Hrun as [| s1 s2 _ IH Hstep]; [reflexivity |].
  assert (Hcall : opts (snd (stabilizing s1)) = opts s).
  { pose proof (stabilizing_frame s1) as Hf; cbv zeta in Hf.
    destruct Hf as (-> & _). exact IH. }
  destruct Hstep as [s2 [Ho2 _] | |].
  - congruence.
  - exact Hcall.
  - destruct (restarting_state s1) as [-> | ->]; assumption.
Qed.

(** The phase flag is written at line 50 only, behind the test of
    [opts.stabilize] at line 19: over a run from an unstable phase the
    options stay as they are and the phase is stable only with the
    stabilization enabled. *)
Lemma stable_needs_stabilization (s0 s : Internal) :
  stable s0 = false -> search_run s0 s ->
  opts s = opts s0 /\ (stable s = true -> Opts.stabilize (opts s) = true).
Proof.
  intros Hinit Hrun.
  induction Hrun as [| s1 s2 _ [Ho IH] Hstep].
  - split; [reflexivity | congruence].
  - assert (Hcall : opts (snd (stabilizing s1)) = opts s0 /\
                    (stable (snd (stabilizing s1)) = true ->
                     Opts.stabilize (opts (snd (stabilizing s1))) = true)).
    { pose proof (stabilizing_frame s1) as Hf; cbv zeta in Hf.
      destruct Hf as (Hopts & _). rewrite Hopts.
      split; [exact Ho |].
      destruct (stabilizing_cases s1) as [[Hx _] | (_ & Hsame & _)].
      - intros _. unfold crosses_limit in Hx.
        apply andb_prop in Hx as [Hx _]. apply andb_prop in Hx as [Hon _].
        exact Hon.
      - rewrite Hsame. exact IH. }
    destruct Hstep as [s2 [Ho2 Hs2] | |].
    + rewrite Ho2, Hs2. split; [exact Ho | exact IH].
    + exact Hcall.
    + destruct (restarting_state s1) as [-> | ->];
        [split; [exact Ho | exact IH] | exact Hcall].
Qed.

(** C7: over the runs of the search that start in the unstable phase (the
    initial phase; the rest of the solver writes neither the options nor
    the phase flag), once stabilize-only mode is configured and the phase
    is stable, [stabilizing] returns true on every call and changes
    nothing, and the phase stays stable at every later state of the run.
    Consequently [restarting], with the restart feature enabled and the
    depth guard passed ([level] being a non-negative [int]), returns the
    fire signal of the reluctant generator on every call, whatever the glue
    averages are. *)
Theorem stabilize_only_stays_stable (s0 s : Internal) :
  stable s0 = false -> search_run s0 s ->
  Opts.stabilizeonly (opts s) = true ->
  stable s = true ->
  forall s' : Internal,
    search_run s s' ->
    Opts.stabilizeonly (opts s') = true /\
    stable s' = true /\
    stabilizing s' = (true, s') /\
    (0 <= level s' <= INT_MAX -> spec_stabilize_only s') /\
    (Opts.restart (opts s') = true ->
     0 <= level s' <= INT_MAX -> above_assumptions 2 s' ->
     restarting s' = (reluctant s', s') /\
     forall a : Averages.t,
       restarting (set_averages a s') = (reluctant s', set_averages a s')).
Proof.
  intros Hinit Hrun Honly Hst s' Hrun'.
  destruct (stable_needs_stabilization s0 s Hinit Hrun) as [_ Hneeds].
  pose proof (Hneeds Hst) as Hon.
  pose proof (run_keeps_options s s' Hrun') as Hopts.
  destruct (stabilize_only_is_sticky s Hon Honly Hst s' Hrun')
    as (Hst' & Hstab & Hrestart).
  split; [rewrite Hopts; exact Honly |].
  split; [exact Hst' |]. split; [exact Hstab |].
  split; [| exact Hrestart].
  intros Hl _ _. rewrite Hstab. split; [reflexivity |].
  intros Hr Ha. destruct (Hrestart Hr Hl Ha) as [-> _]. reflexivity.
Qed.

(** No run from an unstable phase reaches [ex_only_but_disabled]. *)
Lemma only_but_disabled_unreachable (s0 : Internal) :
  stable s0 = false -> ~ search_run s0 ex_only_but_disabled.
Proof.
  intros Hinit Hrun.
  destruct (stable_needs_stabilization s0 _ Hinit Hrun) as [_ Hneeds].
  specialize (Hneeds eq_refl). discriminate Hneeds.
Qed.

(** ** The interval 0 after a phase switch *)

(** X1: a second call of [stabilizing] with the same counters repeats the
    first one, result and state, when the first call leaves a nonzero
    interval. *)
Lemma stabilizing_settles (s : Internal) :
  in_int64 (Stats.ticks_search (stats s)) ->
  Stats.ticks_search (stats s) < INT64_MAX ->
  inc_stabilize (snd (stabilizing s)) <> 0 ->
  stabilizing (snd (stabilizing s)) = stabilizing s.
Proof.
  intros Hrange Hmax Hinc.
  destruct (stabilizing_cases s) as [[Hx Hcase] | (_ & Hsame & _)];
    [| rewrite Hsame; reflexivity].
  rewrite Hcase in *.
  pose proof (stabilizing_flip_fields s) as Hf; cbv zeta in Hf.
  destruct Hf as (Hfst & Hst & Hi & Hlim & _ & Ho & _ & Ht & _).
  destruct (stabilizing_flip s) as [b s1]; cbn [fst snd] in *.
  unfold crosses_limit in Hx.
  apply andb_prop in Hx as [Hx _]. apply andb_prop in Hx as [Hon _].
  unfold stabilizing at 1. rewrite Ho, Hon; cbn [negb].
  destruct (stable s1 && Opts.stabilizeonly (opts s)) eqn:Honly.
  - apply andb_prop in Honly as [Hs1 _]. congruence.
  - destruct (Z.eqb_spec (inc_stabilize s1) 0) as [Hz | _]; [contradiction |].
    rewrite Ht, Hlim.
    rewrite (to_int64_id (Stats.ticks_search (stats s) + 1))
      by (unfold in_int64 in *; lia).
    match goal with
    | |- (if ?a <=? ?b then _ else _) = _ =>
        destruct (Z.leb_spec a b) as [_ | Habove]
    end; [congruence |].
    exfalso.
    destruct (Z.leb_spec
                (to_int64 (Stats.ticks_search (stats s) + flip_interval s))
                (Stats.ticks_search (stats s))); lia.
Qed.


(** The build with assertions runs [stabilizing] as long as the assertion
    holds. *)
Lemma stabilizing_debug_spec (s : Internal) :
  stabilizing_debug s
  = if stabilizing_assertion s then Some (stabilizing s) else None.
Proof.
  unfold stabilizing_debug, stabilizing, stabilizing_assertion,
    takes_precalibration_branch.
  destruct (Opts.stabilize (opts s)); cbn [negb andb]; [| reflexivity].
  destruct (stable s && Opts.stabilizeonly (opts s)); cbn [negb andb];
    [reflexivity |].
  destruct (inc_stabilize s =? 0);
    [destruct (stable s); cbn [negb]; [reflexivity |] |];
    destruct (_ <=? _); reflexivity.
Qed.

(** C10: from the initial unstable and uncalibrated state [ex_no_ticks]
    (conflict limit crossed, no tick since the recorded time) one call of
    [stabilizing] calibrates the interval to 0 and switches to the stable
    phase, so that the next call takes the pre-calibration branch with the
    stable flag set: the assertion of line 24 fails there. *)
Theorem stabilizing_assertion_fails_after_zero_delta :
  let s1 := snd (stabilizing ex_no_ticks) in
  stable ex_no_ticks = false /\ inc_stabilize ex_no_ticks = 0 /\
  stabilizing_assertion ex_no_ticks = true /\
  inc_stabilize s1 = 0 /\ stable s1 = true /\
  takes_precalibration_branch s1 = true /\
  stabilizing_assertion s1 = false /\
  stabilizing_debug s1 = None.
Proof. vm_compute. repeat split; reflexivity. Qed.

(** C8: on [ex_no_ticks] the first call of [stabilizing] switches to the
    stable phase and returns true; the second call, with the counters of
    conflicts and ticks where they were, returns false, although the first
    call had settled. *)
Theorem stabilizing_repeated_call_differs :
  let r1 := stabilizing ex_no_ticks in
  let r2 := stabilizing (snd r1) in
  fst r1 = true /\ stable (snd r1) = true /\
  Stats.conflicts (stats (snd r1)) = Stats.conflicts (stats ex_no_ticks) /\
  Stats.ticks_search (stats (snd r1))
  = Stats.ticks_search (stats ex_no_ticks) /\
  fst r2 = false /\ fst r2 <> fst r1.
Proof. vm_compute. repeat split; (reflexivity || discriminate). Qed.

(** ** The theorems on the sample states *)

Ltac sample_facts :=
  cbv [stack_consistent above_assumptions reuse_counters_fit
       restart_counters_fit in_int64 INT_MIN INT_MAX INT64_MIN INT64_MAX];
  cbn; repeat split; lia.

(** [ex_bumped_earlier]: the decision of level 1 was bumped at 5, before
    the next decision variable (at 10).  The code keeps no level; the walk
    of the specification would go on to level 1. *)
Lemma reuse_walk_as_specified_fails :
  ~ spec_reuse_walk ex_heuristics ex_bumped_earlier.
Proof.
  intros (td & res & s' & Htd & Hrun & _ & _ & Hstop).
  vm_compute in Htd. injection Htd as <-.
  vm_compute in Hrun. injection Hrun as <- _.
  destruct Hstop as (d & Hd & Hfail); [reflexivity |].
  vm_compute in Hd. injection Hd as <-.
  destruct Hfail as [Hzero | Hrank]; [discriminate Hzero |].
  vm_compute in Hrank. discriminate Hrank.
Qed.

Lemma reuse_walk_sample :
  stack_consistent ex_scenario_d /\ above_assumptions 1 ex_scenario_d /\
  Opts.restartreusetrail (opts ex_scenario_d) = true /\
  exists res s',
    reuse_trail ex_heuristics ex_scenario_d = Done (res, s') /\
    0 <= res <= 3.
Proof.
  assert (Hc : stack_consistent ex_scenario_d) by sample_facts.
  assert (Ha : above_assumptions 1 ex_scenario_d) by sample_facts.
  split; [exact Hc |]. split; [exact Ha |]. split; [reflexivity |].
  destruct (reuse_trail_walks_while_outranked ex_heuristics ex_scenario_d
              Hc Ha eq_refl)
    as (td & res & s' & Htd & Hrun & Hres & _).
  vm_compute in Htd. injection Htd as <-.
  exists res, s'. split; [exact Hrun | exact Hres].
Defined.

Lemma reuse_counts_sample :
  stack_consistent ex_scenario_d /\ above_assumptions 1 ex_scenario_d /\
  reuse_counters_fit ex_scenario_d /\
  exists s',
    reuse_trail ex_heuristics ex_scenario_d = Done (2, s') /\
    Stats.reused (stats s') = 3 /\ Stats.reusedlevels (stats s') = 7.
Proof.
  assert (Hc : stack_consistent ex_scenario_d) by sample_facts.
  assert (Ha : above_assumptions 1 ex_scenario_d) by sample_facts.
  assert (Hfit : reuse_counters_fit ex_scenario_d) by sample_facts.
  split; [exact Hc |]. split; [exact Ha |]. split; [exact Hfit |].
  destruct (reuse_trail_counts_reused_levels ex_heuristics ex_scenario_d
              Hc Ha Hfit) as [_ Hscenario].
  destruct (Hscenario eq_refl eq_refl eq_refl eq_refl
              (mkLevel 0) 1 (-2) 3 eq_refl)
    as (s' & _ & Hrun & Hreused & Hlevels);
    try (cbn; lia); try discriminate.
  exists s'. split; [exact Hrun |]. split; [exact Hreused | exact Hlevels].
Defined.

Lemma reuse_bounds_sample :
  stack_consistent ex_reuse_off /\ above_assumptions 1 ex_reuse_off /\
  Opts.restartreusetrail (opts ex_reuse_off) = false /\
  reuse_trail ex_heuristics ex_reuse_off = Done (2, ex_reuse_off) /\
  reuse_trail ex_heuristics
    (set_control (map mkLevel [0; 4; 0; 7; 7; 7; 7; 7]) ex_reuse_off)
  = Done (2, set_control (map mkLevel [0; 4; 0; 7; 7; 7; 7; 7]) ex_reuse_off).
Proof.
  assert (Hc : stack_consistent ex_reuse_off) by sample_facts.
  assert (Ha : above_assumptions 1 ex_reuse_off) by sample_facts.
  split; [exact Hc |]. split; [exact Ha |]. split; [reflexivity |].
  destruct (reuse_trail_within_bounds ex_heuristics ex_reuse_off Hc Ha)
    as (td & res & s' & Htd & Hrun & _ & Hoff).
  vm_compute in Htd. injection Htd as <-.
  destruct (Hoff eq_refl) as (-> & -> & Hany).
  split; [exact Hrun |].
  apply Hany.
  - intros [| [| [| i]]] Hi; try reflexivity. cbn in Hi. lia.
  - cbn. discriminate.
Defined.

Lemma restart_sample :
  stack_consistent ex_scenario_d /\ above_assumptions 1 ex_scenario_d /\
  restart_counters_fit ex_scenario_d /\
  exists s',
    restart ex_heuristics ex_scenario_d = Done s' /\
    Stats.restarts (stats s') = 8 /\ Stats.restartlevels (stats s') = 43 /\
    Stats.restartstable (stats s') = 3 /\
    Lim.restart (lim s') = 52.
Proof.
  assert (Hc : stack_consistent ex_scenario_d) by sample_facts.
  assert (Ha : above_assumptions 1 ex_scenario_d) by sample_facts.
  assert (Hfit : restart_counters_fit ex_scenario_d) by sample_facts.
  split; [exact Hc |]. split; [exact Ha |]. split; [exact Hfit |].
  destruct (restart_counts_and_backtracks ex_heuristics ex_scenario_d
              Hc Ha Hfit)
    as (res & s1 & s' & _ & Hrun & H1 & H2 & H3 & _ & _ & _ & H4).
  exists s'. repeat split; assumption.
Defined.

Lemma flip_limit_sample :
  in_int64 (Stats.ticks_search (stats ex_calibrated)) /\
  Stats.ticks_search (stats ex_calibrated) < INT64_MAX /\
  stable (snd (stabilizing ex_calibrated)) <> stable ex_calibrated /\
  5000 < Lim.stabilize (lim (snd (stabilizing ex_calibrated))).
Proof.
  assert (Hr : in_int64 (Stats.ticks_search (stats ex_calibrated)))
    by sample_facts.
  assert (Hm : Stats.ticks_search (stats ex_calibrated) < INT64_MAX)
    by sample_facts.
  assert (Hf : stable (snd (stabilizing ex_calibrated))
               <> stable ex_calibrated) by (vm_compute; discriminate).
  split; [exact Hr |]. split; [exact Hm |]. split; [exact Hf |].
  exact (proj1 (stabilizing_flip_raises_limit ex_calibrated Hr Hm Hf)).
Defined.

Lemma restarting_false_sample :
  fst (stabilizing (ex_scenario_a 4)) = false /\
  Stats.conflicts (stats (ex_scenario_a 4))
  <= Lim.restart (lim (ex_scenario_a 4)) /\
  fst (restarting (ex_scenario_a 4)) = false.
Proof.
  assert (Hu : fst (stabilizing (ex_scenario_a 4)) = false) by reflexivity.
  assert (Hg : Stats.conflicts (stats (ex_scenario_a 4))
               <= Lim.restart (lim (ex_scenario_a 4))) by (cbn; lia).
  split; [exact Hu |]. split; [exact Hg |].
  exact (proj1 (proj2 (proj2 (restarting_false_cases (ex_scenario_a 4)))
                  Hu Hg)).
Defined.

Lemma restarting_glue_sample :
  Opts.restart (opts (ex_scenario_a 6)) = true /\
  above_assumptions 2 (ex_scenario_a 6) /\
  fst (stabilizing (ex_scenario_a 6)) = false /\
  Lim.restart (lim (ex_scenario_a 6))
  < Stats.conflicts (stats (ex_scenario_a 6)) /\
  fst (restarting (ex_scenario_a 6)) = true.
Proof.
  assert (Hl : 0 <= level (ex_scenario_a 6) <= INT_MAX) by sample_facts.
  assert (Ha : above_assumptions 2 (ex_scenario_a 6)) by sample_facts.
  assert (Hg : Lim.restart (lim (ex_scenario_a 6))
               < Stats.conflicts (stats (ex_scenario_a 6))) by (cbn; lia).
  split; [reflexivity |]. split; [exact Ha |]. split; [reflexivity |].
  split; [exact Hg |].
  destruct (restarting_compares_glue_averages (ex_scenario_a 6)
              eq_refl Hl Ha eq_refl Hg) as (_ & _ & Hscenario).
  apply Hscenario; reflexivity.
Defined.

(** The start in the unstable phase matters: on [ex_only_but_disabled],
    which no such run reaches ([only_but_disabled_unreachable]), the
    stabilize-only flag is set and the phase flag is stable, but the
    stabilization is disabled and [stabilizing] returns false at line 20. *)
Lemma stabilize_only_as_specified_fails :
  ~ spec_stabilize_only ex_only_but_disabled.
Proof.
  intros Hclaim.
  destruct (Hclaim eq_refl eq_refl) as [Htrue _].
  vm_compute in Htrue. discriminate Htrue.
Qed.

Lemma stabilize_only_sample :
  Opts.stabilize (opts ex_stable_only) = true /\
  Opts.stabilizeonly (opts ex_stable_only) = true /\
  stable ex_stable_only = true /\
  search_run ex_stable_only (snd (restarting ex_stable_only)) /\
  stabilizing (snd (restarting ex_stable_only))
  = (true, snd (restarting ex_stable_only)).
Proof.
  assert (Hrun : search_run ex_stable_only (snd (restarting ex_stable_only)))
    by (eapply run_more; [apply run_here | apply step_restarting]).
  split; [reflexivity |]. split; [reflexivity |]. split; [reflexivity |].
  split; [exact Hrun |].
  exact (proj1 (proj2 (stabilize_only_is_sticky ex_stable_only
                         eq_refl eq_refl eq_refl _ Hrun))).
Defined.

(** ** Further properties of [stabilizing] *)

Lemma stabilizing_flip_events (s : Internal) :
  events (snd (stabilizing_flip s))
  = Start (phase_profile (negb (stable s)))
    :: Report (if negb (stable s) then "[" else "{")%char
    :: Stop (phase_profile (stable s))
    :: Report (if stable s then "]" else "}")%char
    :: events s.
Proof.
  destruct s as [o st l i la av stb rel lv asm ct ev].
  destruct st as [cf tk sp r1 r2 r3 u1 u2 u3], l as [ls lr].
  destruct stb, i as [| p | p];
    cbv beta iota zeta delta
      [stabilizing_flip report STOP START emit phase_profile
       swap_averages set_stats set_lim set_inc_stabilize set_averages
       set_stable opts stats lim inc_stabilize last averages stable
       reluctant level assumptions control events
       Stats.set_stabphases Stats.conflicts Stats.ticks_search
       Stats.stabphases Stats.restarts Stats.restartlevels
       Stats.restartstable Stats.reused Stats.reusedlevels
       Stats.reusedstable Lim.set_stabilize Lim.stabilize Lim.restart
       Last.stabilize_ticks Averages.current Averages.saved negb fst snd
       Z.eqb];
    match goal with
    | |- context [?a <=? ?b] => destruct (a <=? b)
    end;
    reflexivity.
Qed.

(** X3: with the stabilization enabled and the assertion of line 24
    holding, [stabilizing] returns the phase flag as the call leaves it. *)
Theorem stabilizing_returns_phase (s : Internal) :
  Opts.stabilize (opts s) = true ->
  stabilizing_assertion s = true ->
  fst (stabilizing s) = stable (snd (stabilizing s)).
Proof.
  intros Hon Hassert.
  destruct (stabilizing_cases s) as [[_ Hflip] | (_ & Hsame & Hfst)].
  - rewrite Hflip.
    pose proof (stabilizing_flip_fields s) as Hf; cbv zeta in Hf.
    destruct Hf as (-> & -> & _). reflexivity.
  - rewrite Hsame, Hfst, Hon. cbn [andb].
    unfold stabilizing_assertion, takes_precalibration_branch in Hassert.
    rewrite Hon in Hassert. cbn [andb] in Hassert.
    destruct (stable s), (Opts.stabilizeonly (opts s)),
      (inc_stabilize s =? 0); cbn in *; reflexivity || discriminate Hassert.
Qed.

(** X4: a call of [stabilizing] that leaves the phase flag as it was
    changes nothing in the state.  A call that switches the phase reports
    the end of the old phase, stops its timer, reports the start of the new
    phase and starts its timer, in this order and nothing else, and counts a
    stabilization phase exactly when the new phase is the stable one. *)
Theorem stabilizing_switch_is_paired (s : Internal) :
  let s' := snd (stabilizing s) in
  (stable s' = stable s -> s' = s) /\
  (stable s' <> stable s ->
   events s'
   = Start (phase_profile (stable s'))
     :: Report (if stable s' then "[" else "{")%char
     :: Stop (phase_profile (stable s))
     :: Report (if stable s then "]" else "}")%char
     :: events s /\
   Stats.stabphases (stats s')
   = (if stable s' then to_int64 (Stats.stabphases (stats s) + 1)
      else Stats.stabphases (stats s)) /\
   fst (stabilizing s) = stable s').
Proof.
  cbv zeta.
  destruct (stabilizing_cases s) as [[_ Hflip] | (_ & Hsame & _)].
  - rewrite Hflip.
    pose proof (stabilizing_flip_fields s) as Hf; cbv zeta in Hf.
    destruct Hf as (Hfst & Hst & _ & _ & _ & _ & _ & _ & Hphases & _).
    split.
    + rewrite Hst. destruct (stable s); discriminate.
    + intros _. rewrite stabilizing_flip_events, Hphases, Hfst, Hst.
      destruct (stable s); repeat split; reflexivity.
  - rewrite Hsame. split; [reflexivity | intros Hne; contradiction].
Qed.

(** X5: with the stabilization disabled the phase flag never changes over
    a run of the search: at every state of the run [stabilizing] returns
    false and neither [stabilizing] nor [restarting] writes the state. *)
Theorem stabilize_disabled_never_switches (s : Internal) :
  Opts.stabilize (opts s) = false ->
  forall s' : Internal,
    search_run s s' ->
    stable s' = stable s /\
    stabilizing s' = (false, s') /\
    snd (restarting s') = s'.
Proof.
  intros Hoff.
  assert (Hcall : forall s0, Opts.stabilize (opts s0) = false ->
            stabilizing s0 = (false, s0) /\ snd (restarting s0) = s0).
  { intros s0 H0.
    assert (Hs : stabilizing s0 = (false, s0))
      by (unfold stabilizing; rewrite H0; reflexivity).
    split; [exact Hs |].
    unfold restarting. rewrite Hs.
    destruct (negb (Opts.restart (opts s0))); [reflexivity |].
    destruct (_ <? _); [reflexivity |].
    destruct (_ <=? _); reflexivity. }
  intros s' Hrun.
  assert (Hinv : opts s' = opts s /\ stable s' = stable s).
  { induction Hrun as [| s1 s2 _ [Ho Hs] Hstep]; [auto |].
    assert (H1 : Opts.stabilize (opts s1) = false)
      by (rewrite Ho; exact Hoff).
    destruct (Hcall s1 H1) as [Hstab Hrest].
    destruct Hstep as [s2 [Ho2 Hs2] | |].
    - split; congruence.
    - rewrite Hstab. auto.
    - rewrite Hrest. auto. }
  destruct Hinv as [Ho Hs].
  split; [exact Hs |].
  apply Hcall. rewrite Ho. exact Hoff.
Qed.

(** ** Further properties of [reuse_trail] and [restart] *)

Section RestartProtocol.

Variable h : Heuristics.

Lemma restart_count_same (s : Internal) : same_search s (restart_count s).
Proof.
  unfold same_search, restart_count.
  destruct (stable s) eqn:Hst; repeat (cbn; rewrite ?Hst);
    repeat split; reflexivity.
Qed.

Lemma count_reused_same (r : Z) (s : Internal) :
  same_search s (count_reused r s).
Proof.
  unfold same_search, count_reused.
  destruct (0 <? r); cbn; [| repeat split; reflexivity].
  destruct (stable s) eqn:Hst; cbn; rewrite ?Hst;
    repeat split; reflexivity.
Qed.

(** [restart] returns on every consistent stack with a level above the
    assumptions, whatever the counters hold. *)
Lemma restart_result (s : Internal) :
  stack_consistent s -> above_assumptions 1 s ->
  exists s',
    restart h s = Done s' /\
    Z.of_nat (length (assumptions s)) <= level s' <= level s /\
    control s' = firstn (Z.to_nat (level s' + 1)) (control s) /\
    stack_consistent s' /\
    opts s' = opts s /\ stable s' = stable s /\
    inc_stabilize s' = inc_stabilize s /\
    Lim.stabilize (lim s') = Lim.stabilize (lim s) /\
    averages s' = averages s /\ assumptions s' = assumptions s.
Proof.
  intros Hc Ha.
  destruct (restart_count_same s)
    as (Ho & Hst & Hi & Hl & Hav & Has & Hlv & Hct).
  set (s0 := restart_count s) in *.
  assert (Hc0 : stack_consistent s0)
    by (unfold stack_consistent; rewrite Hlv, Hct; exact Hc).
  assert (Ha0 : above_assumptions 1 s0)
    by (unfold above_assumptions; rewrite Hlv, Has; exact Ha).
  destruct (trivial_decisions_defined s0 Hc0 Ha0) as (d0 & _ & Htd0).
  destruct (reuse_trail_defined h s0 Hc0 Ha0)
    as (td & res & Htd & Hrun & Htdr & Hres).
  rewrite Htd in Htd0; injection Htd0 as Htd0.
  assert (Hlow : Z.of_nat (length (assumptions s)) <= res)
    by (rewrite Has in Htd0; destruct (d0 =? 0); lia).
  destruct (count_reused_same (res - td) s0)
    as (Ho1 & Hst1 & Hi1 & Hl1 & Hav1 & Has1 & Hlv1 & Hct1).
  set (s1 := count_reused (res - td) s0) in *.
  destruct Hc as [[Hl0 Hmax] Hlen].
  assert (Hback : level (backtrack res s1) = res /\
                  control (backtrack res s1)
                  = firstn (Z.to_nat (res + 1)) (control s) /\
                  opts (backtrack res s1) = opts s /\
                  stable (backtrack res s1) = stable s /\
                  inc_stabilize (backtrack res s1) = inc_stabilize s /\
                  Lim.stabilize (lim (backtrack res s1))
                  = Lim.stabilize (lim s) /\
                  averages (backtrack res s1) = averages s /\
                  assumptions (backtrack res s1) = assumptions s).
  { unfold backtrack. destruct (Z.ltb_spec res (level s1)) as [Hlt | Hge].
    - cbn. rewrite Hct1, Hct. repeat split; congruence.
    - assert (res = level s) by lia. subst res.
      repeat split; try congruence.
      rewrite Hct1, Hct. symmetry. apply firstn_all2. lia. }
  destruct Hback as (Hb1 & Hb2 & Hb3 & Hb4 & Hb5 & Hb6 & Hb7 & Hb8).
  eexists. split.
  { unfold restart. fold s0. rewrite Hrun. cbn [bind fst snd]. reflexivity. }
  unfold stack_consistent.
  cbn [STOP report emit set_lim level control opts stable inc_stabilize lim
       averages assumptions Lim.set_restart Lim.stabilize].
  rewrite Hb1, Hb2, length_firstn.
  repeat split; try assumption; lia.
Qed.

(** X6: a restart never goes below the assumption levels.  On a
    consistent stack with a level above the assumptions [restart] returns,
    whatever the counters hold; the level it leaves lies between the
    assumption count and the level before; the decision stack it leaves is
    the old one cut after that level (and consistent), and the options, the
    phase, the stabilization schedule, the averages and the assumptions are
    as before. *)
Theorem restart_keeps_assumption_levels (s : Internal) :
  stack_consistent s -> above_assumptions 1 s ->
  exists s',
    restart h s = Done s' /\
    Z.of_nat (length (assumptions s)) <= level s' <= level s /\
    control s' = firstn (Z.to_nat (level s' + 1)) (control s) /\
    stack_consistent s' /\
    opts s' = opts s /\ stable s' = stable s /\
    inc_stabilize s' = inc_stabilize s /\
    Lim.stabilize (lim s') = Lim.stabilize (lim s) /\
    averages s' = averages s /\ assumptions s' = assumptions s.
Proof. exact (restart_result s). Qed.

(** X7: when [restarting] returns true on a consistent stack, the state
    it leaves has at least two levels above the assumptions, so that
    [restart] reads [control] inside the vector and returns, at a level
    that keeps the assumptions. *)
Theorem restarting_true_permits_restart (s : Internal) :
  stack_consistent s ->
  Z.of_nat (length (assumptions s)) + 2 < 2 ^ 64 ->
  fst (restarting s) = true ->
  above_assumptions 2 (snd (restarting s)) /\
  exists s',
    restart h (snd (restarting s)) = Done s' /\
    Z.of_nat (length (assumptions s)) <= level s' <= level s.
Proof.
  intros Hc Hsize Hfire.
  pose proof Hc as [Hl Hlen].
  pose proof (stabilizing_frame s) as Hf; cbv zeta in Hf.
  destruct Hf as (_ & _ & _ & _ & _ & Hlv & Has & Hct).
  assert (Hdeep : above_assumptions 2 s /\
                  snd (restarting s) = snd (stabilizing s)).
  { revert Hfire. unfold restarting, above_assumptions.
    destruct (negb (Opts.restart (opts s))); [discriminate |].
    rewrite depth_guard by assumption.
    destruct (Z.ltb_spec (level s) (Z.of_nat (length (assumptions s)) + 2));
      [discriminate |].
    intros _. split; [lia |].
    destruct (stabilizing s) as [b s1]; cbn [snd].
    destruct b; [reflexivity |].
    destruct (_ <=? _); reflexivity. }
  destruct Hdeep as [Hdeep ->].
  unfold above_assumptions in *.
  assert (Hc1 : stack_consistent (snd (stabilizing s)))
    by (unfold stack_consistent; rewrite Hlv, Hct; exact Hc).
  assert (Ha1 : above_assumptions 1 (snd (stabilizing s)))
    by (unfold above_assumptions; rewrite Hlv, Has; lia).
  split; [rewrite Hlv, Has; exact Hdeep |].
  destruct (restart_result (snd (stabilizing s)) Hc1 Ha1)
    as (s' & Hrun & Hrange & _).
  exists s'. split; [exact Hrun |]. rewrite Hlv, Has in Hrange. exact Hrange.
Qed.

(** X8: on a consistent stack with no level above the assumption levels,
    [reuse_trail] reads [control] one frame beyond its end, whether the
    reuse is switched on or not, and so does [restart]. *)
Theorem reuse_trail_needs_depth (s : Internal) :
  stack_consistent s ->
  Z.of_nat (length (assumptions s)) + 1 < 2 ^ 64 ->
  level s < Z.of_nat (length (assumptions s)) + 1 ->
  trivial_decisions s = Undefined /\
  reuse_trail h s = Undefined /\
  restart h s = Undefined.
Proof.
  intros Hc Hsize Hshallow.
  assert (Hany : forall s0, same_search s s0 ->
            trivial_decisions s0 = Undefined).
  { intros s0 (_ & _ & _ & _ & _ & Has & Hlv & Hct).
    destruct Hc as [[Hl0 _] Hlen].
    unfold trivial_decisions, control_decision. rewrite Has, Hct.
    rewrite to_size_t_id by lia.
    destruct (Z.ltb_spec (Z.of_nat (length (assumptions s)) + 1) 0); [lia |].
    destruct (nth_error (control s)
                (Z.to_nat (Z.of_nat (length (assumptions s)) + 1)))
      eqn:Hread; [| reflexivity].
    assert (Hin : nth_error (control s)
                    (Z.to_nat (Z.of_nat (length (assumptions s)) + 1))
                  <> None) by congruence.
    apply nth_error_Some in Hin. lia. }
  assert (Hhere : trivial_decisions s = Undefined)
    by (apply Hany; repeat split; reflexivity).
  split; [exact Hhere |]. split.
  - unfold reuse_trail. rewrite Hhere. reflexivity.
  - unfold restart, reuse_trail.
    rewrite (Hany (restart_count s) (restart_count_same s)). reflexivity.
Qed.

End RestartProtocol.

(** X9: with the restart feature and the stabilization enabled, the depth
    guard passed and the assertion of line 24 holding, [restarting] returns
    the fire signal of the reluctant generator whenever the phase is stable
    after its call of [stabilizing], also when that call has just switched
    to the stable phase, and whatever the conflict count, the restart limit
    and the glue averages are. *)
Theorem restarting_in_stable_phase (s : Internal) :
  Opts.restart (opts s) = true ->
  0 <= level s <= INT_MAX -> above_assumptions 2 s ->
  Opts.stabilize (opts s) = true ->
  stabilizing_assertion s = true ->
  stable (snd (stabilizing s)) = true ->
  fst (restarting s) = reluctant s /\
  snd (restarting s) = snd (stabilizing s) /\
  forall a : Averages.t, fst (restarting (set_averages a s)) = reluctant s.
Proof.
  intros Hon Hl Ha Hstab Hassert Hphase.
  assert (Hfst : fst (stabilizing s) = true).
  { destruct (stabilizing_cases s) as [[_ Hflip] | (_ & Hsame & Hret)].
    - rewrite Hflip in *.
      pose proof (stabilizing_flip_fields s) as Hf; cbv zeta in Hf.
      destruct Hf as (-> & Hst & _). rewrite <- Hst. exact Hphase.
    - rewrite Hsame in Hphase. rewrite Hret, Hstab, Hphase. cbn [andb].
      unfold stabilizing_assertion, takes_precalibration_branch in Hassert.
      rewrite Hstab, Hphase in Hassert.
      destruct (Opts.stabilizeonly (opts s)), (inc_stabilize s =? 0);
        cbn in *; reflexivity || discriminate Hassert. }
  pose proof (stabilizing_frame s) as Hf; cbv zeta in Hf.
  destruct Hf as (_ & _ & _ & _ & Hrel & _).
  split; [| split].
  - rewrite (restarting_past_guards s Hon Hl Ha). cbv zeta.
    rewrite Hfst. exact Hrel.
  - rewrite (restarting_past_guards s Hon Hl Ha). cbv zeta.
    rewrite Hfst. reflexivity.
  - intros a.
    rewrite (restarting_past_guards (set_averages a s) Hon Hl Ha). cbv zeta.
    rewrite stabilizing_ignores_averages, Hfst. cbn [fst].
    pose proof (stabilizing_frame (set_averages a s)) as Hg; cbv zeta in Hg.
    destruct Hg as (_ & _ & _ & _ & Hrel' & _). exact Hrel'.
Qed.

(** ** The further properties on the sample states *)

Lemma stabilizing_settles_sample :
  in_int64 (Stats.ticks_search (stats ex_calibrated)) /\
  Stats.ticks_search (stats ex_calibrated) < INT64_MAX /\
  inc_stabilize (snd (stabilizing ex_calibrated)) <> 0 /\
  stabilizing (snd (stabilizing ex_calibrated)) = stabilizing ex_calibrated.
Proof.
  assert (Hr : in_int64 (Stats.ticks_search (stats ex_calibrated)))
    by sample_facts.
  assert (Hm : Stats.ticks_search (stats ex_calibrated) < INT64_MAX)
    by sample_facts.
  assert (Hi : inc_stabilize (snd (stabilizing ex_calibrated)) <> 0)
    by (vm_compute; discriminate).
  split; [exact Hr |]. split; [exact Hm |]. split; [exact Hi |].
  exact (stabilizing_settles ex_calibrated Hr Hm Hi).
Defined.


Lemma stabilizing_returns_phase_sample :
  Opts.stabilize (opts ex_calibrated) = true /\
  stabilizing_assertion ex_calibrated = true /\
  fst (stabilizing ex_calibrated) = stable (snd (stabilizing ex_calibrated)).
Proof.
  split; [reflexivity |]. split; [reflexivity |].
  exact (stabilizing_returns_phase ex_calibrated eq_refl eq_refl).
Defined.

Lemma stabilizing_switch_sample :
  stable (snd (stabilizing ex_calibrated)) <> stable ex_calibrated /\
  events (snd (stabilizing ex_calibrated))
  = [Start prof_stable; Report "["%char; Stop prof_unstable;
     Report "}"%char] /\
  Stats.stabphases (stats (snd (stabilizing ex_calibrated))) = 1.
Proof.
  assert (Hne : stable (snd (stabilizing ex_calibrated))
                <> stable ex_calibrated) by (vm_compute; discriminate).
  split; [exact Hne |].
  destruct (proj2 (stabilizing_switch_is_paired ex_calibrated) Hne)
    as (Hev & Hph & _).
  split; [exact Hev | exact Hph].
Defined.

Lemma stabilize_disabled_sample :
  Opts.stabilize (opts (ex_scenario_a 6)) = false /\
  search_run (ex_scenario_a 6) (snd (restarting (ex_scenario_a 6))) /\
  stable (snd (restarting (ex_scenario_a 6))) = false.
Proof.
  assert (Hrun : search_run (ex_scenario_a 6)
                   (snd (restarting (ex_scenario_a 6))))
    by (eapply run_more; [apply run_here | apply step_restarting]).
  split; [reflexivity |]. split; [exact Hrun |].
  exact (proj1 (stabilize_disabled_never_switches (ex_scenario_a 6)
                  eq_refl _ Hrun)).
Defined.

Lemma restart_keeps_assumptions_sample :
  stack_consistent ex_reuse_off /\ above_assumptions 1 ex_reuse_off /\
  exists s',
    restart ex_heuristics ex_reuse_off = Done s' /\
    1 <= level s' <= 4 /\ stack_consistent s'.
Proof.
  assert (Hc : stack_consistent ex_reuse_off) by sample_facts.
  assert (Ha : above_assumptions 1 ex_reuse_off) by sample_facts.
  split; [exact Hc |]. split; [exact Ha |].
  destruct (restart_keeps_assumption_levels ex_heuristics ex_reuse_off Hc Ha)
    as (s' & Hrun & Hrange & _ & Hc' & _).
  exists s'. split; [exact Hrun |]. split; [exact Hrange | exact Hc'].
Defined.

Lemma restarting_permits_restart_sample :
  stack_consistent ex_restart_due /\
  fst (restarting ex_restart_due) = true /\
  exists s',
    restart ex_heuristics (snd (restarting ex_restart_due)) = Done s' /\
    0 <= level s' <= 2.
Proof.
  assert (Hc : stack_consistent ex_restart_due) by sample_facts.
  assert (Hsize : Z.of_nat (length (assumptions ex_restart_due)) + 2 < 2 ^ 64)
    by (cbn; lia).
  assert (Hfire : fst (restarting ex_restart_due) = true)
    by (vm_compute; reflexivity).
  split; [exact Hc |]. split; [exact Hfire |].
  exact (proj2 (restarting_true_permits_restart ex_heuristics ex_restart_due
                  Hc Hsize Hfire)).
Defined.

Lemma reuse_trail_needs_depth_sample :
  stack_consistent ex_only_assumptions /\
  level ex_only_assumptions
  < Z.of_nat (length (assumptions ex_only_assumptions)) + 1 /\
  reuse_trail ex_heuristics ex_only_assumptions = Undefined /\
  restart ex_heuristics ex_only_assumptions = Undefined.
Proof.
  assert (Hc : stack_consistent ex_only_assumptions) by sample_facts.
  assert (Hsize : Z.of_nat (length (assumptions ex_only_assumptions)) + 1
                  < 2 ^ 64) by (cbn; lia).
  assert (Hs : level ex_only_assumptions
               < Z.of_nat (length (assumptions ex_only_assumptions)) + 1)
    by (cbn; lia).
  split; [exact Hc |]. split; [exact Hs |].
  exact (proj2 (reuse_trail_needs_depth ex_heuristics ex_only_assumptions
                  Hc Hsize Hs)).
Defined.

Lemma restarting_in_stable_phase_sample :
  Opts.restart (opts ex_calibrated) = true /\
  above_assumptions 2 ex_calibrated /\
  stable ex_calibrated = false /\
  stable (snd (stabilizing ex_calibrated)) = true /\
  fst (restarting ex_calibrated) = reluctant ex_calibrated.
Proof.
  assert (Hl : 0 <= level ex_calibrated <= INT_MAX) by sample_facts.
  assert (Ha : above_assumptions 2 ex_calibrated) by sample_facts.
  split; [reflexivity |]. split; [exact Ha |]. split; [reflexivity |].
  split; [reflexivity |].
  exact (proj1 (restarting_in_stable_phase ex_calibrated eq_refl Hl Ha
                  eq_refl eq_refl eq_refl)).
Defined.

Lemma stabilize_only_stays_stable_sample :
  stable ex_only_unstable = false /\
  search_run ex_only_unstable (snd (stabilizing ex_only_unstable)) /\
  Opts.stabilizeonly (opts (snd (stabilizing ex_only_unstable))) = true /\
  stable (snd (stabilizing ex_only_unstable)) = true /\
  search_run (snd (stabilizing ex_only_unstable))
    (snd (restarting (snd (stabilizing ex_only_unstable)))) /\
  stabilizing (snd (restarting (snd (stabilizing ex_only_unstable))))
  = (true, snd (restarting (snd (stabilizing ex_only_unstable)))).
Proof.
  assert (Hrun : search_run ex_only_unstable
                   (snd (stabilizing ex_only_unstable)))
    by (eapply run_more; [apply run_here | apply step_stabilizing]).
  assert (Hrun' : search_run (snd (stabilizing ex_only_unstable))
                    (snd (restarting (snd (stabilizing ex_only_unstable)))))
    by (eapply run_more; [apply run_here | apply step_restarting]).
  assert (Honly : Opts.stabilizeonly
                    (opts (snd (stabilizing ex_only_unstable))) = true)
    by (vm_compute; reflexivity).
  assert (Hst : stable (snd (stabilizing ex_only_unstable)) = true)
    by (vm_compute; reflexivity).
  split; [reflexivity |]. split; [exact Hrun |]. split; [exact Honly |].
  split; [exact Hst |]. split; [exact Hrun' |].
  exact (proj1 (proj2 (proj2
           (stabilize_only_stays_stable ex_only_unstable _ eq_refl Hrun
              Honly Hst _ Hrun')))).
Defined.
